(** * abc_interact: the ABC rejection sampler of [abc_interact.ipynb]

    A shallow embedding of the notebook's sampling code and the proofs of
    its bookkeeping properties.

    Conventions of the embedding.
    - Python floats are idealised as exact rationals ([Q]); the only
      non-finite value the code manipulates, [-np.inf] returned by the
      priors, is kept apart in [xfloat]. The rounding of binary64 is not
      modelled: where the code truncates a product (the two sizes in
      [simulate_dataset]), the exact product is truncated here.
    - Python integers are [Z].
    - [np.random] is a global generator: it is threaded explicitly as a
      [RandomState], a fixed stream of standard-normal draws with a cursor.
    - Exceptions are values of [exn]; a computation returns a [result].
    - The [while] loop may run forever: it is run with fuel, and [None]
      means that the fuel ran out before the loop condition became false.
    - [scipy.stats.anderson_ksamp] is library code outside the repository:
      the sampler is verified for an arbitrary statistic (a section
      variable); [Scipy.anderson_ksamp] transcribes SciPy's formula so that
      actual values of [distance] can be computed. *)

From Stdlib Require Import QArith ZArith List Lia Lqa Bool.
From stdpp Require Import base list gmap.
Import ListNotations.

(** ** Exceptions and results *)

Inductive exn : Type :=
| ValueError          (* unpacking a vector of the wrong length, bad sizes *)
| IndexError          (* array index out of bounds *)
| ZeroDivisionError.  (* [a / 0] on Python numbers *)

Inductive result (A : Type) : Type :=
| Ok (a : A)
| Raise (e : exn).
Arguments Ok {A} a.
Arguments Raise {A} e.

(** Sequencing: an exception ends the computation. stdpp's monadic
    notation [x ← r; k] is used for it. *)
#[global] Instance result_bind : MBind result := fun A B k r =>
  match r with
  | Ok a => k a
  | Raise e => Raise e
  end.

(** ** Numbers *)

(** What a prior may return: a finite float or one of the IEEE specials. *)
Inductive xfloat : Type :=
| Fin (q : Q)
| NegInf
| PosInf
| NaN.

(** [np.isfinite] *)
Definition isfinite (x : xfloat) : bool :=
  match x with
  | Fin _ => true
  | _ => false
  end.

Definition Qltb (x y : Q) : bool := negb (Qle_bool y x).

(** Python's [int(float)]: truncation toward zero. The argument is the
    exact value here; Python truncates the binary64 result, which can lie
    just below an integer that the exact value reaches (with a fraction of
    [0.8], [(1 - 0.8) * 500] is [99.99999999999997] and truncates to 99). *)
Definition int (q : Q) : Z := Z.quot (Qnum q) (Zpos (Qden q)).

(** Python's true division of two integers. *)
Definition truediv (a b : Z) : result Q :=
  if (b =? 0)%Z then Raise ZeroDivisionError
  else Ok (inject_Z a / inject_Z b)%Q.

(** ** The global random generator *)

Record RandomState : Type := mkRandomState {
  normal_draws : nat -> Q;   (* the stream of standard-normal draws *)
  cursor : nat               (* how many have been consumed *)
}.

(** [np.random.randn(n)]: the next [n] draws; a negative size raises. *)
Definition randn (n : Z) (rs : RandomState) : result (list Q * RandomState) :=
  if (n <? 0)%Z then Raise ValueError
  else Ok (map (normal_draws rs) (seq (cursor rs) (Z.to_nat n)),
           mkRandomState (normal_draws rs) (cursor rs + Z.to_nat n)).

(** ** The notebook's globals and collaborators *)

(** [x = np.linspace(0, 1, 500)]; only [len(x)] is used. *)
Definition len_x : Z := 500.

Definition true_fraction : Q := 3 # 10.

(** [y_obs]: the observed dataset, two concatenated normal draws. *)
Definition make_y_obs (true_mean1 true_mean2 true_std : Q)
    (rs : RandomState) : result (list Q * RandomState) :=
  '(z1, rs1) ← randn (int ((1 - true_fraction) * inject_Z len_x)) rs;
  '(z2, rs2) ← randn (int (true_fraction * inject_Z len_x)) rs1;
  Ok (map (fun e => true_mean1 + true_std * e)%Q z1
        ++ map (fun e => true_mean2 + true_std * e)%Q z2, rs2).

(** [lnprior]: unpacks four components, returns [0] inside the box and
    [-np.inf] outside. *)
Definition lnprior (theta : list Q) : result xfloat :=
  match theta with
  | [mean1; mean2; std; fraction] =>
      if Qltb (-10) mean1 && Qltb mean1 20
         && Qltb (-10) mean2 && Qltb mean2 20
         && Qltb 0 std && Qltb std 10
         && Qle_bool 0 fraction && Qle_bool fraction 1
      then Ok (Fin 0)
      else Ok NegInf
  | _ => Raise ValueError
  end.

(** [lnprior_beta]: the two-parameter prior of the second example. *)
Definition lnprior_beta (theta : list Q) : result xfloat :=
  match theta with
  | [lna; lnb] =>
      if Qltb (-100) lna && Qltb lna 100
         && Qltb (-100) lnb && Qltb lnb 100
      then Ok (Fin 0)
      else Ok NegInf
  | _ => Raise ValueError
  end.

(** [propose_step]: [theta + scale * np.random.randn(len(theta))]. *)
Definition propose_step (theta : list Q) (scale : Q) (rs : RandomState)
    : result (list Q * RandomState) :=
  '(z, rs') ← randn (Z.of_nat (length theta)) rs;
  Ok (zip_with (fun t e => t + scale * e)%Q theta z, rs').

(** The body of [simulate_dataset], for a given value of the global
    [len(x)]: the two sub-draws are made left to right and concatenated. *)
Definition simulate_mixture (len_x : Z) (theta : list Q) (rs : RandomState)
    : result (list Q * RandomState) :=
  match theta with
  | [mean1; mean2; std; fraction] =>
      '(z1, rs1) ← randn (int ((1 - fraction) * inject_Z len_x)) rs;
      '(z2, rs2) ← randn (int (fraction * inject_Z len_x)) rs1;
      Ok (map (fun e => mean1 + std * e)%Q z1
            ++ map (fun e => mean2 + std * e)%Q z2, rs2)
  | _ => Raise ValueError
  end.

(** [simulate_dataset], with the notebook's [x]. *)
Definition simulate_dataset : list Q -> RandomState
    -> result (list Q * RandomState) :=
  simulate_mixture len_x.

(** ** Lines printed on standard output *)

Inductive line : Type :=
| SampleOf (accepted n_steps : Z)   (* f'Sample {accepted_steps} of {n_steps}' *)
| AcceptanceRate (rate : Q).        (* f'Acceptance rate: {...}' *)

(** ** The arrays *)

(** [np.zeros((n, d))] *)
Definition zeros (n : Z) (d : nat) : result (list (list Q)) :=
  if (n <? 0)%Z then Raise ValueError
  else Ok (replicate (Z.to_nat n) (replicate d 0%Q)).

(** [a[i, :] = row]: negative indices count from the end, anything out of
    bounds raises. The row written always has the width of the array here
    (see [propose_step_length]), so no broadcasting takes place. *)
Definition set_row (a : list (list Q)) (i : Z) (row : list Q)
    : result (list (list Q)) :=
  let n := Z.of_nat (length a) in
  if ((0 <=? i) && (i <? n))%Z then Ok (<[Z.to_nat i := row]> a)
  else if ((- n <=? i) && (i <? 0))%Z then Ok (<[Z.to_nat (n + i) := row]> a)
  else Raise IndexError.

(** ** The sampler *)

Record state : Type := mkState {
  theta : list Q;
  accepted_steps : Z;
  total_steps : Z;
  samples : list (list Q);
  printed : gset Z;
  stdout : list line;
  rng : RandomState
}.

Section Sampler.

(** The statistic of [scipy.stats.anderson_ksamp(samples).statistic]. *)
Variable anderson_ksamp : list (list Q) -> result Q.

(** [distance]: the statistic of [[y_sim, y_obs]] plus 1.31. *)
Definition distance (y_obs y_sim : list Q) : result Q :=
  a2 ← anderson_ksamp [y_sim; y_obs];
  Ok (a2 + (131 # 100))%Q.

(** The arguments of [rejection_sampler] that the loop only reads. *)
Variables (h : Q) (n_steps : Z) (scale : Q) (quiet : bool)
          (y_obs : list Q)
          (prior : list Q -> result xfloat)
          (simulate_y : list Q -> RandomState -> result (list Q * RandomState)).

(** The progress report at the top of the loop body. *)
Definition progress (st : state) : state :=
  if negb quiet
     && (accepted_steps st mod 1000 =? 0)%Z
     && bool_decide (accepted_steps st ∉ printed st)
  then mkState (theta st) (accepted_steps st) (total_steps st) (samples st)
               ({[accepted_steps st]} ∪ printed st)
               (stdout st ++ [SampleOf (accepted_steps st) n_steps])
               (rng st)
  else st.

(** One execution of the body of the [while] loop. *)
Definition loop_body (st0 : state) : result state :=
  let st := progress st0 in
  '(new_theta, rs1) ← propose_step (theta st) scale (rng st);
  p ← prior new_theta;
  if isfinite p then
    '(y_sim, rs2) ← simulate_y new_theta rs1;
    dist ← distance y_obs y_sim;
    let total := (total_steps st + 1)%Z in
    if Qle_bool dist h then
      samples' ← set_row (samples st) (accepted_steps st) new_theta;
      Ok (mkState new_theta (accepted_steps st + 1)%Z total samples'
                  (printed st) (stdout st) rs2)
    else
      Ok (mkState (theta st) (accepted_steps st) total (samples st)
                  (printed st) (stdout st) rs2)
  else
    Ok (mkState (theta st) (accepted_steps st) (total_steps st) (samples st)
                (printed st) (stdout st) rs1).

(** [while accepted_steps < n_steps: body]. [None]: out of fuel. *)
Fixpoint while_loop (fuel : nat) (st : state) : option (result state) :=
  if (accepted_steps st <? n_steps)%Z then
    match fuel with
    | O => None
    | S fuel' =>
        match loop_body st with
        | Ok st' => while_loop fuel' st'
        | Raise e => Some (Raise e)
        end
    end
  else Some (Ok st).

(** The state when the loop is first reached. *)
Definition initial (theta0 : list Q) (rs : RandomState) : result state :=
  samples0 ← zeros n_steps (length theta0);
  Ok (mkState theta0 0 0 samples0 ∅ [] rs).

(** What follows the loop: print the acceptance rate, return [samples]. *)
Definition finish (st : state) : result (list (list Q) * list line) :=
  rate ← truediv (accepted_steps st) (total_steps st);
  Ok (samples st, stdout st ++ [AcceptanceRate rate]).

Definition rejection_sampler (fuel : nat) (theta0 : list Q)
    (rs : RandomState) : option (result (list (list Q) * list line)) :=
  match initial theta0 rs with
  | Raise e => Some (Raise e)
  | Ok st0 =>
      match while_loop fuel st0 with
      | None => None
      | Some (Raise e) => Some (Raise e)
      | Some (Ok st) => Some (finish st)
      end
  end.

(** The state at the head of the loop after [k] more executions of the
    body, when the loop really makes them. *)
Fixpoint after (k : nat) (st : state) : option state :=
  match k with
  | O => Some st
  | S k' =>
      if (accepted_steps st <? n_steps)%Z then
        match loop_body st with
        | Ok st' => after k' st'
        | Raise _ => None
        end
      else None
  end.

(** The parameter vectors on which the acceptance counter advanced, in
    the order in which that happened during the run. *)
Fixpoint accepted_history (fuel : nat) (st : state) : list (list Q) :=
  match fuel with
  | O => []
  | S fuel' =>
      if (accepted_steps st <? n_steps)%Z then
        match loop_body st with
        | Ok st' =>
            (if (accepted_steps st <? accepted_steps st')%Z
             then [theta st'] else [])
              ++ accepted_history fuel' st'
        | Raise _ => []
        end
      else []
  end.

(** Execution [k] of the body, in the run that starts in [st0], accepted
    [row] as the sample of index [i]: it proposed [row] from [prev], its
    current theta, with the generator as it stood, and made it the
    current theta. *)
Definition accepted_at (st0 : state) (k i : nat) (prev row : list Q)
    : Prop :=
  exists (s s' : state) (rs1 : RandomState),
    after k st0 = Some s /\ after (S k) st0 = Some s'
    /\ accepted_steps s = Z.of_nat i /\ accepted_steps s' = Z.of_nat (S i)
    /\ theta s = prev
    /\ propose_step (theta s) scale (rng s) = Ok (row, rs1)
    /\ theta s' = row.

(** Whether the proposal made from a state passes the prior filter. *)
Definition passes_prior (st : state) : bool :=
  match propose_step (theta st) scale (rng st) with
  | Ok (new_theta, _) =>
      match prior new_theta with
      | Ok p => isfinite p
      | Raise _ => false
      end
  | Raise _ => false
  end.

(** How many of the proposals made during the run passed the prior
    filter. *)
Fixpoint prior_valid_proposals (fuel : nat) (st : state) : Z :=
  match fuel with
  | O => 0
  | S fuel' =>
      if (accepted_steps st <? n_steps)%Z then
        match loop_body st with
        | Ok st' =>
            ((if passes_prior st then 1 else 0)
             + prior_valid_proposals fuel' st')%Z
        | Raise _ => 0
        end
      else 0
  end.

(** A parameter vector that passes the prior filter. *)
Definition prior_valid (c : list Q) : Prop :=
  exists p, prior c = Ok p /\ isfinite p = true.

(** A parameter vector that can be accepted: it passes the prior filter
    and, for some state of the generator, its simulated dataset lies
    within the tolerance. *)
Definition acceptable (c : list Q) : Prop :=
  prior_valid c
  /\ exists rs1 y_sim rs2 dist,
      simulate_y c rs1 = Ok (y_sim, rs2)
      /\ distance y_obs y_sim = Ok dist /\ (dist <= h)%Q.

(** A configuration with no acceptable proposal: whatever the state of the
    generator, the proposal made from [theta0] is turned down by the prior
    or lies farther than [h], and no collaborator raises. *)
Definition never_accepts (theta0 : list Q) : Prop :=
  forall rs : RandomState,
  exists new_theta rs1 p,
    propose_step theta0 scale rs = Ok (new_theta, rs1)
    /\ prior new_theta = Ok p
    /\ (isfinite p = false
        \/ exists y_sim rs2 dist,
            simulate_y new_theta rs1 = Ok (y_sim, rs2)
            /\ distance y_obs y_sim = Ok dist /\ (h < dist)%Q).

End Sampler.

(** The three ways an execution of the body can end normally. *)
Definition prior_rejected (st st' : state) (rs1 : RandomState) : Prop :=
  theta st' = theta st /\ accepted_steps st' = accepted_steps st
  /\ total_steps st' = total_steps st /\ samples st' = samples st
  /\ rng st' = rs1.

Definition distance_rejected (st st' : state) (rs2 : RandomState) : Prop :=
  theta st' = theta st /\ accepted_steps st' = accepted_steps st
  /\ total_steps st' = (total_steps st + 1)%Z /\ samples st' = samples st
  /\ rng st' = rs2.

Definition accepted (st st' : state) (new_theta : list Q)
    (rs2 : RandomState) : Prop :=
  theta st' = new_theta /\ accepted_steps st' = (accepted_steps st + 1)%Z
  /\ total_steps st' = (total_steps st + 1)%Z
  /\ set_row (samples st) (accepted_steps st) new_theta = Ok (samples st')
  /\ rng st' = rs2.

(** What holds each time the loop condition is evaluated: the counters
    are ordered, the chain has [n_steps] rows, and the rows from index
    [accepted_steps] on are still the zero rows of [np.zeros]. *)
Definition loop_invariant (n_steps : Z) (st : state) : Prop :=
  (0 <= accepted_steps st <= total_steps st)%Z
  /\ (accepted_steps st <= n_steps)%Z
  /\ Z.of_nat (length (samples st)) = n_steps
  /\ forall i : nat,
       (accepted_steps st <= Z.of_nat i)%Z -> i < length (samples st) ->
       samples st !! i = Some (replicate (length (theta st)) 0%Q).

(** ** SciPy's k-sample Anderson-Darling statistic

    A transcription of [scipy.stats.anderson_ksamp(samples)] with its
    default [midrank=True], returning the field [statistic]. The square
    root is taken to 64 fractional bits. Python's exceptions are kept:
    the three [ValueError]s of the argument checks, the [IndexError] of
    [hs_cs[-1]] on an empty array (a total size of 2) and the
    [ValueError] of [math.sqrt] on a negative number. What rationals
    cannot carry is lost: where NumPy divides by a zero float and goes on
    with [inf] or [nan] (the variance is [0/0] for a total size of 3), the
    division of [Q] gives 0. The values of the transcription are SciPy's
    from a total size of 4 on, and the statements about them assume it. *)

Module Scipy.

Fixpoint insort (x : Q) (l : list Q) : list Q :=
  match l with
  | [] => [x]
  | y :: l' => if Qle_bool x y then x :: l else y :: insort x l'
  end.

(** [np.sort] *)
Definition sort (l : list Q) : list Q := foldr insort [] l.

(** [np.unique] of a sorted array *)
Fixpoint unique (l : list Q) : list Q :=
  match l with
  | [] => []
  | x :: l' =>
      match l' with
      | y :: _ => if Qeq_bool x y then unique l' else x :: unique l'
      | [] => [x]
      end
  end.

(** [a.searchsorted(z, 'left')] and [a.searchsorted(z, 'right')] on a
    sorted array [a]: how many elements are below [z], or not above it. *)
Definition searchsorted_left (a : list Q) (z : Q) : Q :=
  inject_Z (Z.of_nat (length (List.filter (fun y => Qltb y z) a))).

Definition searchsorted_right (a : list Q) (z : Q) : Q :=
  inject_Z (Z.of_nat (length (List.filter (fun y => Qle_bool y z) a))).

(** Sums are kept in lowest terms. *)
Definition Qsum (l : list Q) : Q := foldr (fun x acc => Qred (x + acc)) 0%Q l.

Definition size (l : list Q) : Q := inject_Z (Z.of_nat (length l)).

(** [_anderson_ksamp_midrank] *)
Definition anderson_ksamp_midrank (samples : list (list Q))
    (Z Zstar : list Q) (N : Q) : Q :=
  let inner (s : list Q) (z : Q) : Q :=
    let left := searchsorted_left Z z in
    let lj := (searchsorted_right Z z - left)%Q in
    let Bj := (left + lj / 2)%Q in
    let s_right := searchsorted_right s z in
    let fij := (s_right - searchsorted_left s z)%Q in
    let Mij := (s_right - fij / 2)%Q in
    (lj / N * ((N * Mij - Bj * size s) * (N * Mij - Bj * size s))
       / (Bj * (N - Bj) - N * lj / 4))%Q in
  (Qsum (map (fun sample =>
               let s := sort sample in
               Qsum (map (inner s) Zstar) / size s)%Q samples)
     * ((N - 1) / N))%Q.

(** [np.cumsum] *)
Fixpoint cumsum (acc : Q) (l : list Q) : list Q :=
  match l with
  | [] => []
  | x :: l' => Qred (acc + x) :: cumsum (Qred (acc + x)) l'
  end.

(** [math.sqrt], to 64 fractional bits *)
Definition Qsqrt (q : Q) : Q :=
  Z.sqrt (Qnum q * 2 ^ 128 / Zpos (Qden q)) # (2 ^ 64).

(** [hs_cs = (1. / arange(N - 1, 1, -1)).cumsum()] *)
Definition hs_cs (N : Z) : list Q :=
  cumsum 0 (map (fun i => / inject_Z (N - 1 - Z.of_nat i))%Q
                (seq 0 (Z.to_nat (N - 2)))).

(** The variance [sigmasq] of the statistic under the null hypothesis; it
    depends on the sample sizes only. *)
Definition sigmasq (n : list Q) (N : Z) : Q :=
  let k := inject_Z (Z.of_nat (length n)) in
  let NQ := inject_Z N in
  let H := Qsum (map Qinv n) in
  let h := (List.last (hs_cs N) 0 + 1)%Q in
  let g :=
    Qred (Qsum (zip_with (fun c i => c / inject_Z (2 + Z.of_nat i))%Q
                  (hs_cs N) (seq 0 (Z.to_nat (N - 2))))) in
  let a := ((4 * g - 6) * (k - 1) + (10 - 6 * g) * H)%Q in
  let b := ((2 * g - 4) * (k * k) + 8 * h * k
            + (2 * g - 14 * h - 4) * H - 8 * h + 4 * g - 6)%Q in
  let c := ((6 * h + 2 * g - 2) * (k * k) + (4 * h - 4 * g + 6) * k
            + (2 * h - 6) * H + 4 * h)%Q in
  let d := ((2 * h + 6) * (k * k) - 4 * h * k)%Q in
  Qred ((a * (NQ * NQ * NQ) + b * (NQ * NQ) + c * NQ + d)
          / ((NQ - 1) * (NQ - 2) * (NQ - 3))).

Definition anderson_ksamp (samples : list (list Q)) : result Q :=
  if (Z.of_nat (length samples) <? 2)%Z then Raise ValueError
  else
    let Z := sort (concat samples) in
    let N := Z.of_nat (length Z) in
    let Zstar := unique Z in
    if (Z.of_nat (length Zstar) <? 2)%Z then Raise ValueError
    else if existsb (fun s => (length s =? 0)%nat) samples then Raise ValueError
    else
      let A2kN := anderson_ksamp_midrank samples Z Zstar (inject_Z N) in
      match hs_cs N with
      | [] => Raise IndexError                      (* [hs_cs[-1]] *)
      | _ :: _ =>
          let s2 := sigmasq (map size samples) N in
          let m := (inject_Z (Z.of_nat (length samples)) - 1)%Q in
          if Qltb s2 0 then Raise ValueError      (* [math.sqrt(sigmasq)] *)
          else Ok (Qred ((A2kN - m) / Qsqrt s2))
      end.

(** The least value [distance] takes on samples of [n_sim] and [n_obs]
    points: [1.31 - 1 / sigma]. *)
Definition distance_floor (n_sim n_obs : nat) : Q :=
  ((131 # 100)
   - 1 / Qsqrt (sigmasq [inject_Z (Z.of_nat n_sim); inject_Z (Z.of_nat n_obs)]
                  (Z.of_nat (n_sim + n_obs))))%Q.

End Scipy.

(** ** A small inference problem

    The notebook's prior and mixture simulator with [len(x) = 8], eight
    observations, SciPy's statistic, and a fixed stream of draws chosen so
    that a run for two samples sees, in this order, a proposal outside the
    prior, a proposal too far from the observations, and two accepted
    proposals. *)

Module Demo.

Definition draws (i : nat) : Q :=
  List.nth i
    [ (* proposal 1: std moves to 21 *)
      0; 0; 200; 0;
      (* proposal 2: mean1 moves to 13; its dataset *)
      100; 0; 0; 0;
      0; 0; 0; 0; 0; 0; 0; 0;
      (* proposal 3: theta itself; its dataset *)
      0; 0; 0; 0;
      -1; 1; -1; 1; 1; -1; 0; 0;
      (* proposal 4; its dataset is made of zero draws *)
      1; -1; 0; 0 ]%Q 0%Q.

Definition rs0 : RandomState := mkRandomState draws 0.
Definition y_obs : list Q := [2; 3; 4; 3; 8; 9; 10; 9]%Q.
Definition theta0 : list Q := [3; 9; 1; 1 # 2]%Q.
Definition h : Q := 5.
Definition n_steps : Z := 2.
Definition scale : Q := 1 # 10.
Definition simulate : list Q -> RandomState -> result (list Q * RandomState) :=
  simulate_mixture 8.

Definition body : state -> result state :=
  loop_body Scipy.anderson_ksamp h n_steps scale false y_obs lnprior simulate.
Definition loop : nat -> state -> option (result state) :=
  while_loop Scipy.anderson_ksamp h n_steps scale false y_obs lnprior simulate.
Definition reach : nat -> state -> option state :=
  after Scipy.anderson_ksamp h n_steps scale false y_obs lnprior simulate.
Definition history : nat -> state -> list (list Q) :=
  accepted_history Scipy.anderson_ksamp h n_steps scale false y_obs lnprior
    simulate.
Definition sampler (fuel : nat)
    : option (result (list (list Q) * list line)) :=
  rejection_sampler Scipy.anderson_ksamp h n_steps scale false y_obs lnprior
    simulate fuel theta0 rs0.

(** The state when the loop is reached, and after two and four
    executions of the body. *)
Definition st0 : state :=
  mkState theta0 0 0 [[0; 0; 0; 0]; [0; 0; 0; 0]]%Q ∅ [] rs0.
Definition st2 : state := default st0 (reach 2 st0).
Definition st4 : state := default st0 (reach 4 st0).

(** The third proposal, its dataset and its distance. *)
Definition theta3 : list Q := [30 # 10; 90 # 10; 10 # 10; 10 # 20]%Q.
Definition y_sim3 : list Q :=
  Eval vm_compute in
    match simulate theta3 (mkRandomState draws 20) with
    | Ok (y, _) => y
    | Raise _ => []
    end.
Definition dist3 : Q :=
  Eval vm_compute in
    match distance Scipy.anderson_ksamp y_obs y_sim3 with
    | Ok d => d
    | Raise _ => 0%Q
    end.

(** What the run returns and prints. *)
Definition chain : list (list Q) :=
  [ [30 # 10; 90 # 10; 10 # 10; 10 # 20];
    [310 # 100; 890 # 100; 100 # 100; 100 # 200] ]%Q.
Definition out : list line := [SampleOf 0 2; AcceptanceRate (2 # 3)].

(** The prior-valid proposals of the run. *)
Definition proposals : nat -> state -> Z :=
  prior_valid_proposals Scipy.anderson_ksamp h n_steps scale false y_obs
    lnprior simulate.

(** A start from which nothing is ever accepted: a scale of zero on a
    vector outside the prior. *)
Definition stuck_theta : list Q := [3; 9; 20; 1 # 2]%Q.

(** The distance between two identical samples of two points. *)
Definition twin_distance : Q :=
  Eval vm_compute in
    match distance Scipy.anderson_ksamp [1; 2]%Q [1; 2]%Q with
    | Ok d => d
    | Raise _ => 0%Q
    end.

End Demo.

(** ** Further runs on the small problem *)

Module Cases.

(** A generator whose draws are all zero. *)
Definition still : RandomState := mkRandomState (fun _ => 0%Q) 0.

(** A run with a step scale of zero, and the chain it returns. *)
Definition frozen_run (fuel : nat)
    : option (result (list (list Q) * list line)) :=
  rejection_sampler Scipy.anderson_ksamp Demo.h 2 0 true Demo.y_obs lnprior
    Demo.simulate fuel Demo.theta0 Demo.rs0.
Definition frozen_chain : list (list Q) :=
  [[3; 9; 1; 1 # 2]; [3; 9; 1; 1 # 2]]%Q.

(** A run started from a vector of three components. *)
Definition short_run (fuel : nat)
    : option (result (list (list Q) * list line)) :=
  rejection_sampler Scipy.anderson_ksamp Demo.h 1 Demo.scale true Demo.y_obs
    lnprior Demo.simulate fuel [1; 2; 3]%Q Demo.rs0.

(** A run of the notebook's own collaborators in which all simulated and
    observed values coincide, which the statistic refuses. *)
Definition flat_run (fuel : nat)
    : option (result (list (list Q) * list line)) :=
  rejection_sampler Scipy.anderson_ksamp 5 1 0 true [3]%Q lnprior
    simulate_dataset fuel [3; 3; 1; 1 # 2]%Q still.

End Cases.

(** ** Notions used to state further properties *)

(** What a call yields, apart from the lines it prints. *)
Definition value_of {A B : Type} (r : option (result (A * B)))
    : option (result A) :=
  match r with
  | Some (Ok (a, _)) => Some (Ok a)
  | Some (Raise e) => Some (Raise e)
  | None => None
  end.

(** The progress lines [Sample 0 of n], [Sample 1000 of n], ...: one for
    each multiple of 1000 below [n]. *)
Definition progress_lines_upto (n_steps : Z) (m : nat) : list line :=
  map (fun j : nat => SampleOf (1000 * Z.of_nat j) n_steps) (seq 0 m).

Definition progress_lines (n_steps : Z) : list line :=
  progress_lines_upto n_steps (Z.to_nat ((n_steps + 999) / 1000)).

(** Two states that differ at most in what has been printed. *)
Definition same_sampling (s1 s2 : state) : Prop :=
  theta s1 = theta s2 /\ accepted_steps s1 = accepted_steps s2
  /\ total_steps s1 = total_steps s2 /\ samples s1 = samples s2
  /\ rng s1 = rng s2.

(** The progress report so far: [m] lines, for the first [m] multiples of
    1000, the last of them at most [accepted_steps] and below [n_steps]. *)
Definition reported (n_steps : Z) (st : state) (m : nat) : Prop :=
  stdout st = progress_lines_upto n_steps m
  /\ (forall x : Z,
        x ∈ printed st <-> exists j : nat, j < m /\ x = (1000 * Z.of_nat j)%Z)
  /\ (1000 * Z.of_nat m - 1000 <= accepted_steps st <= 1000 * Z.of_nat m)%Z
  /\ (m = 0 \/ (1000 * Z.of_nat m - 1000 < n_steps)%Z).

(** The current theta is the vector accepted last, or the initial one as
    long as nothing has been accepted. *)
Definition current_is_last (theta0 : list Q) (st : state) : Prop :=
  (accepted_steps st = 0%Z /\ theta st = theta0)
  \/ ((0 < accepted_steps st)%Z
      /\ samples st !! Z.to_nat (accepted_steps st - 1) = Some (theta st)).

(** The row before row [i] of a chain; the initial theta before the
    first. *)
Definition row_before (theta0 : list Q) (rows : list (list Q)) (i : nat)
    : list Q :=
  match i with
  | O => theta0
  | S j => default theta0 (rows !! j)
  end.

(** A list of vectors each of which is a proposal made from the one
    before it, the first from [theta0]. *)
Definition random_walk (scale : Q) (theta0 : list Q) (rows : list (list Q))
    : Prop :=
  forall (i : nat) (row : list Q),
    rows !! i = Some row ->
    exists rs rs' : RandomState,
      propose_step
        (match i with
         | O => theta0
         | S j => default theta0 (rows !! j)
         end) scale rs
      = Ok (row, rs').

(** * Properties *)

(** ** The collaborators *)

Lemma Qltb_lt (x y : Q) : Qltb x y = true <-> (x < y)%Q.
Proof.
  unfold Qltb. rewrite negb_true_iff, <- not_true_iff_false, Qle_bool_iff.
  split; [apply Qnot_le_lt | apply Qlt_not_le].
Qed.

Lemma Qle_bool_false (x y : Q) : Qle_bool x y = false <-> (y < x)%Q.
Proof.
  rewrite <- not_true_iff_false, Qle_bool_iff.
  split; [apply Qnot_le_lt | apply Qlt_not_le].
Qed.

Lemma randn_ok (n : nat) (rs : RandomState) :
  randn (Z.of_nat n) rs
  = Ok (map (normal_draws rs) (seq (cursor rs) n),
        mkRandomState (normal_draws rs) (cursor rs + n)).
Proof.
  unfold randn. destruct (Z.ltb_spec (Z.of_nat n) 0) as [Hn | _]; [lia |].
  now rewrite Nat2Z.id.
Qed.

Lemma randn_nonneg (n : Z) (rs : RandomState) :
  (0 <= n)%Z ->
  randn n rs
  = Ok (map (normal_draws rs) (seq (cursor rs) (Z.to_nat n)),
        mkRandomState (normal_draws rs) (cursor rs + Z.to_nat n)).
Proof.
  intros Hn. unfold randn. now destruct (Z.ltb_spec n 0); [lia |].
Qed.

Lemma randn_length (n : Z) (rs rs' : RandomState) (z : list Q) :
  randn n rs = Ok (z, rs') -> length z = Z.to_nat n.
Proof.
  unfold randn. destruct (n <? 0)%Z; [discriminate |].
  intros [= <- _]. now rewrite length_map, length_seq.
Qed.

(** The proposal generator cannot fail, and it keeps the dimension. *)
Lemma propose_step_ok (th : list Q) (sc : Q) (rs : RandomState) :
  propose_step th sc rs
  = Ok (zip_with (fun t e => t + sc * e)%Q th
          (map (normal_draws rs) (seq (cursor rs) (length th))),
        mkRandomState (normal_draws rs) (cursor rs + length th)).
Proof. unfold propose_step. now rewrite randn_ok. Qed.

Lemma propose_step_length (th new_theta : list Q) (sc : Q)
    (rs rs' : RandomState) :
  propose_step th sc rs = Ok (new_theta, rs') -> length new_theta = length th.
Proof.
  rewrite propose_step_ok. intros [= <- _].
  rewrite length_zip_with, length_map, length_seq. lia.
Qed.

Lemma set_row_in_range (a : list (list Q)) (i : Z) (row : list Q) :
  (0 <= i < Z.of_nat (length a))%Z ->
  set_row a i row = Ok (<[Z.to_nat i := row]> a).
Proof.
  intros Hi. unfold set_row.
  destruct (Z.leb_spec 0 i); [| lia].
  destruct (Z.ltb_spec i (Z.of_nat (length a))); [reflexivity | lia].
Qed.

(** ** One execution of the loop body *)

Section SamplerFacts.

Context (anderson_ksamp : list (list Q) -> result Q).
Context (h : Q) (n_steps : Z) (scale : Q) (quiet : bool) (y_obs : list Q).
Context (prior : list Q -> result xfloat).
Context (simulate_y : list Q -> RandomState -> result (list Q * RandomState)).

Local Abbreviation dist_of := (distance anderson_ksamp y_obs).
Local Abbreviation body :=
  (loop_body anderson_ksamp h n_steps scale quiet y_obs prior simulate_y).
Local Abbreviation loop :=
  (while_loop anderson_ksamp h n_steps scale quiet y_obs prior simulate_y).
Local Abbreviation reach :=
  (after anderson_ksamp h n_steps scale quiet y_obs prior simulate_y).
Local Abbreviation history :=
  (accepted_history anderson_ksamp h n_steps scale quiet y_obs prior simulate_y).
Local Abbreviation sampler :=
  (rejection_sampler anderson_ksamp h n_steps scale quiet y_obs prior simulate_y).

Lemma progress_theta st : theta (progress n_steps quiet st) = theta st.
Proof. unfold progress. now destruct (_ && _). Qed.

Lemma progress_accepted st :
  accepted_steps (progress n_steps quiet st) = accepted_steps st.
Proof. unfold progress. now destruct (_ && _). Qed.

Lemma progress_total st :
  total_steps (progress n_steps quiet st) = total_steps st.
Proof. unfold progress. now destruct (_ && _). Qed.

Lemma progress_samples st : samples (progress n_steps quiet st) = samples st.
Proof. unfold progress. now destruct (_ && _). Qed.

Lemma progress_rng st : rng (progress n_steps quiet st) = rng st.
Proof. unfold progress. now destruct (_ && _). Qed.

Ltac forget_progress :=
  rewrite ?progress_theta, ?progress_accepted, ?progress_total,
    ?progress_samples, ?progress_rng in *.

(** Inversion of a normal end of the body. *)
Lemma loop_body_inv (st st' : state) :
  body st = Ok st' ->
  exists new_theta rs1 p,
    propose_step (theta st) scale (rng st) = Ok (new_theta, rs1)
    /\ prior new_theta = Ok p
    /\ ((isfinite p = false /\ prior_rejected st st' rs1)
        \/ (isfinite p = true
            /\ exists y_sim rs2 dist,
                simulate_y new_theta rs1 = Ok (y_sim, rs2)
                /\ dist_of y_sim = Ok dist
                /\ ((Qle_bool dist h = false /\ distance_rejected st st' rs2)
                    \/ (Qle_bool dist h = true
                        /\ accepted st st' new_theta rs2)))).
Proof.
  unfold loop_body. forget_progress.
  rewrite (propose_step_ok (theta st)). cbn [mbind result_bind].
  set (new_theta := zip_with _ _ _). set (rs1 := mkRandomState _ _).
  destruct (prior new_theta) as [p | e] eqn:Hp; [| discriminate].
  cbn [mbind result_bind]. intros Hbody.
  exists new_theta, rs1, p.
  split; [reflexivity |]. split; [exact Hp |].
  destruct (isfinite p) eqn:Hfin.
  - right. split; [reflexivity |].
    destruct (simulate_y new_theta rs1) as [[y_sim rs2] | e] eqn:Hsim;
      [| discriminate].
    cbn [mbind result_bind] in Hbody.
    destruct (dist_of y_sim) as [dist | e] eqn:Hdist; [| discriminate].
    cbn [mbind result_bind] in Hbody.
    exists y_sim, rs2, dist.
    split; [reflexivity |]. split; [exact Hdist |].
    destruct (Qle_bool dist h) eqn:Hle.
    + right. split; [reflexivity |].
      destruct (set_row _ _ _) as [smp | e] eqn:Hset; [| discriminate].
      cbn [mbind result_bind] in Hbody. injection Hbody as <-.
      unfold accepted; cbn. forget_progress. now rewrite Hset.
    + left. split; [reflexivity |]. injection Hbody as <-.
      unfold distance_rejected; cbn. now forget_progress.
  - left. split; [reflexivity |]. injection Hbody as <-.
    unfold prior_rejected; cbn. now forget_progress.
Qed.

(** ** The loop invariant *)

Lemma initial_invariant (theta0 : list Q) (rs : RandomState) (st0 : state) :
  initial n_steps theta0 rs = Ok st0 -> loop_invariant n_steps st0.
Proof.
  unfold initial, zeros. destruct (Z.ltb_spec n_steps 0) as [| Hn];
    [discriminate |].
  cbn [mbind result_bind]. intros [= <-]. unfold loop_invariant; cbn.
  rewrite length_replicate. repeat split; try lia.
  intros i _ Hi. now apply lookup_replicate_2.
Qed.

Lemma initial_fields (theta0 : list Q) (rs : RandomState) (st0 : state) :
  initial n_steps theta0 rs = Ok st0 ->
  theta st0 = theta0 /\ accepted_steps st0 = 0%Z /\ total_steps st0 = 0%Z
  /\ rng st0 = rs /\ stdout st0 = [] /\ (0 <= n_steps)%Z.
Proof.
  unfold initial, zeros. destruct (Z.ltb_spec n_steps 0) as [| Hn];
    [discriminate |].
  cbn [mbind result_bind]. intros [= <-]. cbn. repeat split; lia.
Qed.

(** Under the invariant and the loop condition the write index is in
    range, so the row assignment is a plain update. *)
Lemma accepted_write (st st' : state) (new_theta : list Q) (rs2 : RandomState) :
  loop_invariant n_steps st -> (accepted_steps st < n_steps)%Z ->
  accepted st st' new_theta rs2 ->
  samples st' = <[Z.to_nat (accepted_steps st) := new_theta]> (samples st).
Proof.
  intros (Hle & _ & Hlen & _) Hlt (_ & _ & _ & Hset & _).
  rewrite set_row_in_range in Hset by lia. now injection Hset.
Qed.

Lemma body_invariant (st st' : state) :
  loop_invariant n_steps st -> (accepted_steps st < n_steps)%Z ->
  body st = Ok st' -> loop_invariant n_steps st'.
Proof.
  intros Hinv Hlt Hbody.
  destruct (loop_body_inv _ _ Hbody)
    as (nt & rs1 & p & Hprop & _ & [[_ Hrej] | [_ (y & rs2 & d & _ & _ & Hd)]]).
  - destruct Hrej as (Hth & Ha & Ht & Hs & _).
    unfold loop_invariant in *. now rewrite Hth, Ha, Ht, Hs.
  - destruct Hd as [[_ (Hth & Ha & Ht & Hs & _)] | [_ Hacc]].
    + destruct Hinv as (H1 & H2 & H3 & H4).
      unfold loop_invariant. rewrite Hth, Ha, Ht, Hs.
      repeat split; try lia; assumption.
    + pose proof (accepted_write _ _ _ _ Hinv Hlt Hacc) as Hs.
      destruct Hacc as (Hth & Ha & Ht & _ & _).
      destruct Hinv as (H1 & H2 & H3 & H4).
      unfold loop_invariant. rewrite Hth, Ha, Ht, Hs, length_insert.
      repeat split; try lia.
      intros i Hi Hil. rewrite list_lookup_insert_ne by lia.
      rewrite (propose_step_length _ _ _ _ _ Hprop). apply H4; lia.
Qed.

Lemma reach_invariant (k : nat) (st st' : state) :
  loop_invariant n_steps st -> reach k st = Some st' ->
  loop_invariant n_steps st'.
Proof.
  revert st. induction k as [| k IH]; intros st Hinv; cbn [after].
  - now intros [= <-].
  - destruct (Z.ltb_spec (accepted_steps st) n_steps) as [Hlt |];
      [| discriminate].
    destruct (body st) as [st1 | e] eqn:Hbody; [| discriminate].
    apply IH. eapply body_invariant; eassumption.
Qed.

(** The dimension of the current theta never changes. *)
Lemma reach_dimension (k : nat) (st st' : state) :
  reach k st = Some st' -> length (theta st') = length (theta st).
Proof.
  revert st. induction k as [| k IH]; intros st; cbn [after].
  - now intros [= <-].
  - destruct (accepted_steps st <? n_steps)%Z; [| discriminate].
    destruct (body st) as [st1 | e] eqn:Hbody; [| discriminate].
    intros Hreach. rewrite (IH _ Hreach).
    destruct (loop_body_inv _ _ Hbody)
      as (nt & rs1 & p & Hprop & _ & [[_ Hr] | [_ (y & rs2 & d & _ & _ & Hd)]]).
    + destruct Hr as (-> & _). reflexivity.
    + destruct Hd as [[_ (-> & _)] | [_ (-> & _)]]; [reflexivity |].
      exact (propose_step_length _ _ _ _ _ Hprop).
Qed.

(** ** Acceptance and rejection *)

(** C2. When the candidate passes the prior filter, [total_steps] grows
    by one and the distance decides: a distance [<= h] (equality included)
    makes the candidate the current theta, writes it into the chain at
    index [accepted_steps] and increments [accepted_steps]; a distance
    [> h] leaves the current theta, the chain and [accepted_steps] as they
    were. *)
Theorem accept_or_reject (st : state) (new_theta : list Q)
    (rs1 rs2 : RandomState) (p : xfloat) (y_sim : list Q) (dist : Q) :
  loop_invariant n_steps st -> (accepted_steps st < n_steps)%Z ->
  propose_step (theta st) scale (rng st) = Ok (new_theta, rs1) ->
  prior new_theta = Ok p -> isfinite p = true ->
  simulate_y new_theta rs1 = Ok (y_sim, rs2) ->
  dist_of y_sim = Ok dist ->
  exists st',
    body st = Ok st'
    /\ total_steps st' = (total_steps st + 1)%Z
    /\ ((dist <= h)%Q ->
        theta st' = new_theta
        /\ samples st' = <[Z.to_nat (accepted_steps st) := new_theta]> (samples st)
        /\ samples st' !! Z.to_nat (accepted_steps st) = Some new_theta
        /\ accepted_steps st' = (accepted_steps st + 1)%Z)
    /\ ((dist == h)%Q -> accepted_steps st' = (accepted_steps st + 1)%Z)
    /\ ((h < dist)%Q ->
        theta st' = theta st /\ samples st' = samples st
        /\ accepted_steps st' = accepted_steps st).
Proof.
  intros (Hle & _ & Hlen & _) Hlt Hprop Hp Hfin Hsim Hdist.
  unfold loop_body. forget_progress. rewrite Hprop. cbn [mbind result_bind].
  rewrite Hp. cbn [mbind result_bind]. rewrite Hfin, Hsim.
  cbn [mbind result_bind]. rewrite Hdist. cbn [mbind result_bind].
  destruct (Qle_bool dist h) eqn:Hcmp.
  - rewrite set_row_in_range by lia. cbn [mbind result_bind].
    eexists. split; [reflexivity |]. cbn.
    split; [reflexivity |]. split; [| split].
    + intros _. repeat split. apply list_lookup_insert_eq. lia.
    + reflexivity.
    + intros Hgt. apply Qle_bool_iff in Hcmp.
      exfalso. exact (Qlt_not_le _ _ Hgt Hcmp).
  - apply Qle_bool_false in Hcmp.
    eexists. split; [reflexivity |]. cbn.
    split; [reflexivity |]. split; [| split].
    + intros Hdh. exfalso. exact (Qlt_not_le _ _ Hcmp Hdh).
    + intros Heq. exfalso. apply (Qlt_not_le _ _ Hcmp). rewrite Heq.
      apply Qle_refl.
    + now intros _.
Qed.

(** ** The counters *)

(** C4. At every head of the loop of a run, [0 <= accepted_steps <=
    total_steps]; the rows of the chain from index [accepted_steps] on are
    still unwritten; and one more execution of the body lowers neither
    counter, adds to [total_steps] exactly one if the proposal was
    prior-valid and nothing otherwise, and either leaves the chain and
    [accepted_steps] alone or writes the proposal at index
    [accepted_steps] and increments it. *)
Theorem counters_invariant (theta0 : list Q) (rs : RandomState)
    (st0 : state) (k : nat) (st : state) :
  initial n_steps theta0 rs = Ok st0 -> reach k st0 = Some st ->
  (0 <= accepted_steps st <= total_steps st)%Z
  /\ (forall i : nat,
        (accepted_steps st <= Z.of_nat i)%Z -> i < length (samples st) ->
        samples st !! i = Some (replicate (length theta0) 0%Q))
  /\ forall st' : state,
       (accepted_steps st < n_steps)%Z -> body st = Ok st' ->
       (accepted_steps st <= accepted_steps st')%Z
       /\ (total_steps st <= total_steps st')%Z
       /\ exists new_theta rs1 p,
           propose_step (theta st) scale (rng st) = Ok (new_theta, rs1)
           /\ prior new_theta = Ok p
           /\ total_steps st'
              = (total_steps st + (if isfinite p then 1 else 0))%Z
           /\ ((accepted_steps st' = accepted_steps st
                /\ samples st' = samples st)
               \/ (accepted_steps st' = (accepted_steps st + 1)%Z
                   /\ samples st'
                      = <[Z.to_nat (accepted_steps st) := new_theta]>
                          (samples st))).
Proof.
  intros Hinit Hreach.
  pose proof (reach_invariant _ _ _ (initial_invariant _ _ _ Hinit) Hreach)
    as Hinv.
  assert (Hdim : length (theta st) = length theta0).
  { destruct (initial_fields _ _ _ Hinit) as (Hth0 & _). rewrite <- Hth0.
    exact (reach_dimension _ _ _ Hreach). }
  destruct Hinv as (H1 & H2 & H3 & H4).
  split; [exact H1 |]. split; [now rewrite <- Hdim |].
  intros st' Hlt Hbody.
  assert (Hinv : loop_invariant n_steps st) by (repeat split; tauto).
  destruct (loop_body_inv _ _ Hbody)
    as (nt & rs1 & p & Hprop & Hp & [[Hfin Hr] | [Hfin (y & rs2 & d & _ & _ & Hd)]]).
  - destruct Hr as (_ & Ha & Ht & Hs & _). rewrite Ha, Ht.
    split; [lia |]. split; [lia |].
    exists nt, rs1, p. rewrite Hfin. repeat split; try assumption; try lia.
    now left.
  - destruct Hd as [[_ (_ & Ha & Ht & Hs & _)] | [_ Hacc]].
    + rewrite Ha, Ht. split; [lia |]. split; [lia |].
      exists nt, rs1, p. rewrite Hfin. repeat split; try assumption.
      now left.
    + pose proof (accepted_write _ _ _ _ Hinv Hlt Hacc) as Hs.
      destruct Hacc as (_ & Ha & Ht & _ & _). rewrite Ha, Ht.
      split; [lia |]. split; [lia |].
      exists nt, rs1, p. rewrite Hfin. repeat split; try assumption.
      now right.
Qed.

(** ** Runs of the loop *)

(** A loop that ends normally has executed its body some [k] times: the
    loop condition held at each of the [k] earlier heads and fails at the
    last one. *)
Lemma loop_reach (fuel : nat) (st st' : state) :
  loop fuel st = Some (Ok st') ->
  exists k : nat,
    k <= fuel /\ reach k st = Some st'
    /\ (n_steps <= accepted_steps st')%Z
    /\ forall (j : nat) (stj : state),
         j < k -> reach j st = Some stj -> (accepted_steps stj < n_steps)%Z.
Proof.
  revert st. induction fuel as [| fuel IH]; intros st; cbn [while_loop];
    destruct (Z.ltb_spec (accepted_steps st) n_steps) as [Hlt | Hge];
    try discriminate.
  - intros [= <-]. exists 0. repeat split; [lia | lia |]. intros; lia.
  - destruct (body st) as [st1 | e] eqn:Hbody; [| discriminate].
    intros Hloop. destruct (IH _ Hloop) as (k & Hk & Hreach & Hexit & Hbefore).
    exists (S k). split; [lia |]. split.
    { cbn [after]. destruct (Z.ltb_spec (accepted_steps st) n_steps); [| lia].
      now rewrite Hbody. }
    split; [exact Hexit |].
    intros [| j] stj Hj; cbn [after].
    + now intros [= <-].
    + destruct (Z.ltb_spec (accepted_steps st) n_steps); [| lia].
      rewrite Hbody. apply Hbefore. lia.
  - intros [= <-]. exists 0. repeat split; [lia | lia |]. intros; lia.
Qed.

(** The chain at a normal end of the loop: the rows already written,
    followed by the vectors accepted since, in order. *)
Lemma loop_history (fuel : nat) (st st' : state) :
  loop_invariant n_steps st -> loop fuel st = Some (Ok st') ->
  accepted_steps st' = n_steps
  /\ loop_invariant n_steps st'
  /\ samples st'
     = take (Z.to_nat (accepted_steps st)) (samples st) ++ history fuel st.
Proof.
  assert (Hstop : forall st fuel, loop_invariant n_steps st ->
            (n_steps <= accepted_steps st)%Z ->
            accepted_steps st = n_steps
            /\ loop_invariant n_steps st
            /\ samples st
               = take (Z.to_nat (accepted_steps st)) (samples st)
                   ++ history fuel st).
  { intros st0 fuel0 Hinv Hge. pose proof Hinv as (H1 & H2 & H3 & _).
    split; [lia |]. split; [exact Hinv |].
    rewrite take_ge by lia.
    destruct fuel0; cbn [accepted_history]; [now rewrite app_nil_r |].
    destruct (Z.ltb_spec (accepted_steps st0) n_steps); [lia |].
    now rewrite app_nil_r. }
  revert st. induction fuel as [| fuel IH]; intros st Hinv; cbn [while_loop];
    destruct (Z.ltb_spec (accepted_steps st) n_steps) as [Hlt | Hge];
    try discriminate; try (intros [= <-]; now apply Hstop).
  destruct (body st) as [st1 | e] eqn:Hbody; [| discriminate].
  intros Hloop.
  pose proof (body_invariant _ _ Hinv Hlt Hbody) as Hinv1.
  destruct (IH _ Hinv1 Hloop) as (Hn & Hinv' & Hs).
  split; [exact Hn |]. split; [exact Hinv' |]. rewrite Hs.
  cbn [accepted_history].
  destruct (Z.ltb_spec (accepted_steps st) n_steps); [| lia].
  rewrite Hbody. rewrite app_assoc. f_equal.
  destruct Hinv as (H1 & H2 & H3 & H4).
  assert (Hinv : loop_invariant n_steps st) by (repeat split; tauto).
  destruct (loop_body_inv _ _ Hbody)
    as (nt & rs1 & p & _ & _ & [[_ Hr] | [_ (y & rs2 & d & _ & _ & Hd)]]).
  - destruct Hr as (_ & Ha & _ & Hsm & _). rewrite Ha, Hsm.
    rewrite Z.ltb_irrefl. now rewrite app_nil_r.
  - destruct Hd as [[_ (_ & Ha & _ & Hsm & _)] | [_ Hacc]].
    + rewrite Ha, Hsm, Z.ltb_irrefl. now rewrite app_nil_r.
    + rewrite (accepted_write _ _ _ _ Hinv Hlt Hacc).
      destruct Hacc as (Hth & Ha & _). rewrite Ha, Hth.
      destruct (Z.ltb_spec (accepted_steps st) (accepted_steps st + 1));
        [| lia].
      replace (Z.to_nat (accepted_steps st + 1))
        with (S (Z.to_nat (accepted_steps st))) by lia.
      rewrite (take_S_r _ _ nt) by (apply list_lookup_insert_eq; lia).
      now rewrite take_insert_ge by lia.
Qed.

(** Every vector of the history was acceptable when it was accepted. *)
Lemma history_acceptable (fuel : nat) (st : state) :
  Forall (acceptable anderson_ksamp h y_obs prior simulate_y) (history fuel st).
Proof.
  revert st. induction fuel as [| fuel IH]; intros st; cbn [accepted_history];
    [constructor |].
  destruct (accepted_steps st <? n_steps)%Z; [| constructor].
  destruct (body st) as [st1 | e] eqn:Hbody; [| constructor].
  apply Forall_app. split; [| apply IH].
  destruct (Z.ltb_spec (accepted_steps st) (accepted_steps st1)) as [Hlt |];
    [| constructor].
  constructor; [| constructor].
  destruct (loop_body_inv _ _ Hbody)
    as (nt & rs1 & p & _ & Hp & [[_ Hr] | [Hfin (y & rs2 & d & Hsim & Hdist & Hd)]]).
  - destruct Hr as (_ & Ha & _). lia.
  - destruct Hd as [[_ (_ & Ha & _)] | [Hle (Hth & _)]]; [lia |].
    rewrite Hth. split; [now exists p |].
    exists rs1, y, rs2, d. repeat split; try assumption.
    now apply Qle_bool_iff.
Qed.

(** ** The whole sampler *)

Lemma sampler_inv (fuel : nat) (theta0 : list Q) (rs : RandomState)
    (chain : list (list Q)) (out : list line) :
  sampler fuel theta0 rs = Some (Ok (chain, out)) ->
  exists st0 st : state,
    initial n_steps theta0 rs = Ok st0
    /\ loop fuel st0 = Some (Ok st)
    /\ total_steps st <> 0%Z
    /\ chain = samples st
    /\ out = stdout st
               ++ [AcceptanceRate (inject_Z (accepted_steps st)
                                   / inject_Z (total_steps st))].
Proof.
  unfold rejection_sampler.
  destruct (initial n_steps theta0 rs) as [st0 | e]; [| discriminate].
  destruct (loop fuel st0) as [[st | e] |] eqn:Hloop; try discriminate.
  unfold finish, truediv.
  destruct (Z.eqb_spec (total_steps st) 0) as [| Hne]; [discriminate |].
  cbn [mbind result_bind]. intros [= <- <-]. exists st0, st.
  repeat split; assumption.
Qed.

(** C1. A call that returns has left the loop exactly when
    [accepted_steps] reached [n_steps]: the loop condition held at every
    earlier head of the loop and [accepted_steps = n_steps] at the last.
    The chain returned has [n_steps] rows, and row [i] is the [i]-th vector
    accepted, in the order of acceptance. (No hypothesis on [n_steps] is
    needed: for [n_steps <= 0] no call returns.) *)
Theorem chain_in_order_of_acceptance (fuel : nat) (theta0 : list Q)
    (rs : RandomState) (chain : list (list Q)) (out : list line) :
  sampler fuel theta0 rs = Some (Ok (chain, out)) ->
  exists (st0 st : state) (k : nat),
    initial n_steps theta0 rs = Ok st0
    /\ k <= fuel /\ reach k st0 = Some st
    /\ (forall (j : nat) (stj : state),
          j < k -> reach j st0 = Some stj ->
          (accepted_steps stj < n_steps)%Z)
    /\ accepted_steps st = n_steps
    /\ chain = samples st
    /\ Z.of_nat (length chain) = n_steps
    /\ chain = history fuel st0
    /\ forall i : nat, chain !! i = history fuel st0 !! i.
Proof.
  intros Hrun.
  destruct (sampler_inv _ _ _ _ _ Hrun) as (st0 & st & Hinit & Hloop & _ & -> & _).
  destruct (loop_reach _ _ _ Hloop) as (k & Hk & Hreach & _ & Hbefore).
  pose proof (initial_invariant _ _ _ Hinit) as Hinv0.
  destruct (loop_history _ _ _ Hinv0 Hloop) as (Hn & (_ & _ & Hlen & _) & Hs).
  destruct (initial_fields _ _ _ Hinit) as (_ & Ha0 & _).
  rewrite Ha0 in Hs. cbn in Hs.
  exists st0, st, k. repeat split; try assumption. now rewrite Hs.
Qed.

(** C7. The output of a call that returns: the value returned is the
    completed chain, [n_steps] accepted vectors in order, and the last
    line printed is the acceptance rate [accepted_steps / total_steps] of
    the final counters. *)
Theorem sampler_output (fuel : nat) (theta0 : list Q) (rs : RandomState)
    (chain : list (list Q)) (out : list line) :
  sampler fuel theta0 rs = Some (Ok (chain, out)) ->
  exists (st0 st : state),
    initial n_steps theta0 rs = Ok st0
    /\ loop fuel st0 = Some (Ok st)
    /\ accepted_steps st = n_steps
    /\ chain = samples st
    /\ Z.of_nat (length chain) = n_steps
    /\ chain = history fuel st0
    /\ Forall (acceptable anderson_ksamp h y_obs prior simulate_y) chain
    /\ total_steps st <> 0%Z
    /\ out = stdout st
               ++ [AcceptanceRate (inject_Z (accepted_steps st)
                                   / inject_Z (total_steps st))]
    /\ last out
       = Some (AcceptanceRate (inject_Z n_steps / inject_Z (total_steps st))).
Proof.
  intros Hrun.
  destruct (sampler_inv _ _ _ _ _ Hrun)
    as (st0 & st & Hinit & Hloop & Htot & -> & ->).
  pose proof (initial_invariant _ _ _ Hinit) as Hinv0.
  destruct (loop_history _ _ _ Hinv0 Hloop) as (Hn & (_ & _ & Hlen & _) & Hs).
  destruct (initial_fields _ _ _ Hinit) as (_ & Ha0 & _).
  rewrite Ha0 in Hs. cbn in Hs.
  exists st0, st. repeat split; try assumption.
  - rewrite Hs. apply history_acceptable.
  - rewrite last_snoc. now rewrite Hn.
Qed.

(** C10. The division [accepted_steps / total_steps]. In a run with
    [n_steps >= 1] whose loop ends, [1 <= n_steps = accepted_steps <=
    total_steps], so the division is defined and the call returns. With
    [n_steps = 0] the body is never executed, [total_steps] is still [0]
    and the call raises [ZeroDivisionError] instead of returning an empty
    chain. *)
Theorem acceptance_rate_division :
  (forall (fuel : nat) (theta0 : list Q) (rs : RandomState) (st0 st : state),
      (1 <= n_steps)%Z ->
      initial n_steps theta0 rs = Ok st0 ->
      loop fuel st0 = Some (Ok st) ->
      (1 <= n_steps)%Z /\ accepted_steps st = n_steps
      /\ (accepted_steps st <= total_steps st)%Z
      /\ sampler fuel theta0 rs
         = Some (Ok (samples st,
                     stdout st
                       ++ [AcceptanceRate (inject_Z (accepted_steps st)
                                           / inject_Z (total_steps st))])))
  /\ (n_steps = 0%Z ->
      forall (fuel : nat) (theta0 : list Q) (rs : RandomState),
        loop fuel (mkState theta0 0 0 [] ∅ [] rs)
        = Some (Ok (mkState theta0 0 0 [] ∅ [] rs))
        /\ sampler fuel theta0 rs = Some (Raise ZeroDivisionError)).
Proof.
  split.
  - intros fuel theta0 rs st0 st Hn Hinit Hloop.
    pose proof (initial_invariant _ _ _ Hinit) as Hinv0.
    destruct (loop_history _ _ _ Hinv0 Hloop) as (Ha & (Hle & _) & _).
    repeat split; try lia.
    unfold rejection_sampler. rewrite Hinit, Hloop. unfold finish, truediv.
    destruct (Z.eqb_spec (total_steps st) 0) as [Hz |]; [lia |].
    reflexivity.
  - intros Hz fuel theta0 rs.
    assert (Hloop : loop fuel (mkState theta0 0 0 [] ∅ [] rs)
                    = Some (Ok (mkState theta0 0 0 [] ∅ [] rs))).
    { destruct fuel; cbn [while_loop accepted_steps]; now rewrite Hz. }
    split; [exact Hloop |].
    unfold rejection_sampler, initial, zeros.
    rewrite Hz in Hloop |- *. cbn -[while_loop].
    change (replicate (Z.to_nat 0) (replicate (length theta0) 0%Q))
      with (@nil (list Q)).
    now rewrite Hloop.
Qed.

(** ** Fuel

    Fuel only bounds the number of executions of the body: a run that
    ends with some fuel ends in the same way with more. *)

Lemma loop_fuel_mono (fuel fuel' : nat) (st : state) (r : result state) :
  fuel <= fuel' -> loop fuel st = Some r -> loop fuel' st = Some r.
Proof.
  revert fuel' st. induction fuel as [| fuel IH]; intros fuel' st Hle;
    cbn [while_loop].
  - destruct (accepted_steps st <? n_steps)%Z eqn:Hguard; [discriminate |].
    intros [= <-]. destruct fuel'; cbn [while_loop]; now rewrite Hguard.
  - destruct fuel' as [| fuel']; [lia |]. cbn [while_loop].
    destruct (accepted_steps st <? n_steps)%Z; [| exact id].
    destruct (body st) as [st1 | e]; [| exact id].
    apply IH. lia.
Qed.

Lemma rejection_sampler_fuel_mono (fuel fuel' : nat) (theta0 : list Q)
    (rs : RandomState) (r : result (list (list Q) * list line)) :
  fuel <= fuel' ->
  sampler fuel theta0 rs = Some r -> sampler fuel' theta0 rs = Some r.
Proof.
  intros Hle. unfold rejection_sampler.
  destruct (initial n_steps theta0 rs) as [st0 | e]; [| exact id].
  destruct (loop fuel st0) as [r0 |] eqn:Hloop; [| discriminate].
  now rewrite (loop_fuel_mono _ _ _ _ Hle Hloop).
Qed.

(** ** Configurations without acceptable proposals *)

Local Abbreviation hopeless :=
  (never_accepts anderson_ksamp h scale y_obs prior simulate_y).

Lemma hopeless_body (theta0 : list Q) (st : state) :
  hopeless theta0 -> theta st = theta0 ->
  exists st' : state,
    body st = Ok st' /\ theta st' = theta0
    /\ accepted_steps st' = accepted_steps st.
Proof.
  intros Hnever Hth.
  destruct (Hnever (rng st))
    as (nt & rs1 & p & Hprop & Hp & [Hfin | (y & rs2 & d & Hsim & Hdist & Hgt)]);
    unfold loop_body; forget_progress; rewrite Hth, Hprop;
    cbn [mbind result_bind]; rewrite Hp; cbn [mbind result_bind].
  - rewrite Hfin. eexists. split; [reflexivity |]. now cbn.
  - destruct (isfinite p).
    + rewrite Hsim. cbn [mbind result_bind]. rewrite Hdist.
      cbn [mbind result_bind].
      apply Qle_bool_false in Hgt. rewrite Hgt.
      eexists. split; [reflexivity |]. now cbn.
    + eexists. split; [reflexivity |]. now cbn.
Qed.

Lemma hopeless_reach (theta0 : list Q) (k : nat) (st : state) :
  (1 <= n_steps)%Z -> hopeless theta0 ->
  theta st = theta0 -> accepted_steps st = 0%Z ->
  exists st' : state,
    reach k st = Some st' /\ theta st' = theta0 /\ accepted_steps st' = 0%Z.
Proof.
  intros Hn Hnever. revert st.
  induction k as [| k IH]; intros st Hth Ha; cbn [after].
  - now exists st.
  - destruct (Z.ltb_spec (accepted_steps st) n_steps); [| lia].
    destruct (hopeless_body _ _ Hnever Hth) as (st1 & -> & Hth1 & Ha1).
    apply IH; [exact Hth1 | lia].
Qed.

Lemma hopeless_loop (theta0 : list Q) (fuel : nat) (st : state) :
  (1 <= n_steps)%Z -> hopeless theta0 ->
  theta st = theta0 -> accepted_steps st = 0%Z ->
  loop fuel st = None.
Proof.
  intros Hn Hnever. revert st.
  induction fuel as [| fuel IH]; intros st Hth Ha; cbn [while_loop];
    (destruct (Z.ltb_spec (accepted_steps st) n_steps); [| lia]);
    [reflexivity |].
  destruct (hopeless_body _ _ Hnever Hth) as (st1 & -> & Hth1 & Ha1).
  apply IH; [exact Hth1 | lia].
Qed.

(** C5. The loop has no iteration cap: in a configuration where no
    proposal is acceptable (the prior turns it down or its distance
    exceeds [h]), a call with [n_steps >= 1] does not end, whatever the
    fuel; the body is executed any number [k] of times, and after each of
    them [accepted_steps] is still [0] and the current theta still the
    initial one. *)
Theorem no_acceptance_no_termination (theta0 : list Q) (rs : RandomState) :
  (1 <= n_steps)%Z -> hopeless theta0 ->
  (forall fuel : nat, sampler fuel theta0 rs = None)
  /\ exists st0 : state,
      initial n_steps theta0 rs = Ok st0
      /\ forall k : nat,
          exists st : state,
            reach k st0 = Some st
            /\ accepted_steps st = 0%Z /\ theta st = theta0.
Proof.
  intros Hn Hnever.
  destruct (initial n_steps theta0 rs) as [st0 | e] eqn:Hinit.
  2:{ unfold initial, zeros in Hinit.
      destruct (Z.ltb_spec n_steps 0); [lia | discriminate]. }
  destruct (initial_fields _ _ _ Hinit) as (Hth & Ha & _).
  split.
  - intros fuel. unfold rejection_sampler. rewrite Hinit.
    now rewrite (hopeless_loop theta0 fuel st0).
  - exists st0. split; [reflexivity |]. intros k.
    destruct (hopeless_reach theta0 k st0 Hn Hnever Hth Ha)
      as (st & Hr & Hth' & Ha').
    now exists st.
Qed.

(** Prior rejection, inside the loop body: nothing but the generator
    changes. *)
Lemma prior_rejection_body (st : state) (new_theta : list Q)
    (rs1 : RandomState) (p : xfloat) :
  propose_step (theta st) scale (rng st) = Ok (new_theta, rs1) ->
  prior new_theta = Ok p -> isfinite p = false ->
  body st
  = Ok (mkState (theta st) (accepted_steps st) (total_steps st) (samples st)
          (printed (progress n_steps quiet st))
          (stdout (progress n_steps quiet st)) rs1).
Proof.
  intros Hprop Hp Hfin. unfold loop_body. forget_progress.
  rewrite Hprop. cbn [mbind result_bind]. rewrite Hp.
  cbn [mbind result_bind]. now rewrite Hfin.
Qed.

(** Whatever a call returns consists of prior-valid vectors. *)
Lemma chain_prior_valid (fuel : nat) (theta0 : list Q) (rs : RandomState)
    (chain : list (list Q)) (out : list line) :
  sampler fuel theta0 rs = Some (Ok (chain, out)) ->
  Forall (prior_valid prior) chain.
Proof.
  intros Hrun.
  destruct (sampler_inv _ _ _ _ _ Hrun) as (st0 & st & Hinit & Hloop & _ & -> & _).
  destruct (loop_history _ _ _ (initial_invariant _ _ _ Hinit) Hloop)
    as (_ & _ & ->).
  destruct (initial_fields _ _ _ Hinit) as (_ & -> & _). cbn.
  eapply Forall_impl; [apply history_acceptable |].
  now intros c [Hc _].
Qed.

(** The rows written so far are prior-valid at every head of the loop. *)
Lemma written_rows_prior_valid (k : nat) (st : state) :
  forall st' : state,
    loop_invariant n_steps st ->
    Forall (prior_valid prior) (take (Z.to_nat (accepted_steps st)) (samples st)) ->
    reach k st = Some st' ->
    Forall (prior_valid prior)
      (take (Z.to_nat (accepted_steps st')) (samples st')).
Proof.
  revert st. induction k as [| k IH]; intros st st' Hinv Hrows; cbn [after].
  - now intros [= <-].
  - destruct (Z.ltb_spec (accepted_steps st) n_steps) as [Hlt |];
      [| discriminate].
    destruct (body st) as [st1 | e] eqn:Hbody; [| discriminate].
    apply IH; [eapply body_invariant; eassumption |].
    destruct (loop_body_inv _ _ Hbody)
      as (nt & rs1 & p & _ & Hp & [[_ Hr] | [Hfin (y & rs2 & d & _ & _ & Hd)]]).
    + destruct Hr as (_ & -> & _ & -> & _). exact Hrows.
    + destruct Hd as [[_ (_ & -> & _ & -> & _)] | [_ Hacc]]; [exact Hrows |].
      rewrite (accepted_write _ _ _ _ Hinv Hlt Hacc).
      destruct Hinv as (H1 & H2 & H3 & H4).
      destruct Hacc as (_ & -> & _).
      replace (Z.to_nat (accepted_steps st + 1))
        with (S (Z.to_nat (accepted_steps st))) by lia.
      rewrite (take_S_r _ _ nt) by (apply list_lookup_insert_eq; lia).
      rewrite take_insert_ge by lia.
      apply Forall_app. split; [exact Hrows |].
      constructor; [now exists p | constructor].
Qed.

End SamplerFacts.

(** ** The prior gate *)

(** The support of [lnprior] is the box of its docstring, with the
    fraction bounds closed. *)
Lemma lnprior_valid_iff (c : list Q) :
  prior_valid lnprior c
  <-> exists mean1 mean2 std fraction : Q,
        c = [mean1; mean2; std; fraction]
        /\ (-10 < mean1)%Q /\ (mean1 < 20)%Q
        /\ (-10 < mean2)%Q /\ (mean2 < 20)%Q
        /\ (0 < std)%Q /\ (std < 10)%Q
        /\ (0 <= fraction)%Q /\ (fraction <= 1)%Q.
Proof.
  unfold prior_valid. split.
  - intros (p & Hp & Hfin).
    destruct c as [| m1 [| m2 [| s [| f [| x c]]]]]; try discriminate.
    cbn [lnprior] in Hp.
    destruct (_ && _) eqn:Hbox; [| injection Hp as <-; discriminate].
    repeat (apply andb_prop in Hbox; destruct Hbox as [Hbox ?]).
    exists m1, m2, s, f.
    repeat split; try (now apply Qltb_lt); now apply Qle_bool_iff.
  - intros (m1 & m2 & s & f & -> & H1 & H2 & H3 & H4 & H5 & H6 & H7 & H8).
    exists (Fin 0). split; [| reflexivity]. cbn [lnprior].
    apply Qltb_lt in H1, H2, H3, H4, H5, H6. apply Qle_bool_iff in H7, H8.
    now rewrite H1, H2, H3, H4, H5, H6, H7, H8.
Qed.

(** C3. A proposal that fails the prior check is dropped: the body ends
    normally with the current theta, both counters and the chain
    unchanged, the generator advanced by the proposal only, and this
    whatever the simulator, the statistic, the observations and the
    tolerance are, which are therefore not consulted. Consequently the
    rows written so far are prior-valid at every head of the loop of a
    run, and so is every row of a chain that is returned. *)
Theorem prior_gate (anderson_ksamp : list (list Q) -> result Q)
    (h : Q) (n_steps : Z) (scale : Q) (quiet : bool) (y_obs : list Q)
    (prior : list Q -> result xfloat)
    (simulate_y : list Q -> RandomState -> result (list Q * RandomState)) :
  (forall (st : state) (new_theta : list Q) (rs1 : RandomState) (p : xfloat),
      propose_step (theta st) scale (rng st) = Ok (new_theta, rs1) ->
      prior new_theta = Ok p -> isfinite p = false ->
      exists st' : state,
        loop_body anderson_ksamp h n_steps scale quiet y_obs prior simulate_y st
        = Ok st'
        /\ theta st' = theta st
        /\ accepted_steps st' = accepted_steps st
        /\ total_steps st' = total_steps st
        /\ samples st' = samples st
        /\ rng st' = rs1
        /\ cursor rs1 = cursor (rng st) + length (theta st)
        /\ forall anderson_ksamp' h' y_obs' simulate_y',
            loop_body anderson_ksamp' h' n_steps scale quiet y_obs' prior
              simulate_y' st
            = Ok st')
  /\ (forall (theta0 : list Q) (rs : RandomState) (st0 : state) (k : nat)
        (st : state),
        initial n_steps theta0 rs = Ok st0 ->
        after anderson_ksamp h n_steps scale quiet y_obs prior simulate_y k st0
        = Some st ->
        Forall (prior_valid prior)
          (take (Z.to_nat (accepted_steps st)) (samples st)))
  /\ (forall (fuel : nat) (theta0 : list Q) (rs : RandomState)
        (chain : list (list Q)) (out : list line),
        rejection_sampler anderson_ksamp h n_steps scale quiet y_obs prior
          simulate_y fuel theta0 rs
        = Some (Ok (chain, out)) ->
        Forall (prior_valid prior) chain).
Proof.
  split; [| split].
  - intros st nt rs1 p Hprop Hp Hfin. eexists. split.
    { exact (prior_rejection_body _ _ _ _ _ _ _ _ _ _ _ _ Hprop Hp Hfin). }
    cbn. repeat split.
    + rewrite propose_step_ok in Hprop. now injection Hprop as _ <-.
    + intros ak' h' y' sim'.
      exact (prior_rejection_body _ _ _ _ _ _ _ _ _ _ _ _ Hprop Hp Hfin).
  - intros theta0 rs st0 k st Hinit Hreach.
    eapply written_rows_prior_valid; [| | exact Hreach].
    + eapply initial_invariant; eassumption.
    + destruct (initial_fields _ _ _ _ Hinit) as (_ & -> & _). constructor.
  - intros fuel theta0 rs chain out. apply chain_prior_valid.
Qed.

(** ** Vectors of the wrong dimension *)

Lemma lnprior_wrong_length (th : list Q) :
  length th <> 4 -> lnprior th = Raise ValueError.
Proof.
  destruct th as [| m1 [| m2 [| s [| f [| x th]]]]]; cbn; intros H;
    try reflexivity.
  now contradiction H.
Qed.

Lemma lnprior_beta_wrong_length (th : list Q) :
  length th <> 2 -> lnprior_beta th = Raise ValueError.
Proof.
  destruct th as [| a [| b [| x th]]]; cbn; intros H; try reflexivity.
  now contradiction H.
Qed.

Lemma simulate_dataset_wrong_length (th : list Q) (rs : RandomState) :
  length th <> 4 -> simulate_dataset th rs = Raise ValueError.
Proof.
  unfold simulate_dataset.
  destruct th as [| m1 [| m2 [| s [| f [| x th]]]]]; cbn; intros H;
    try reflexivity.
  now contradiction H.
Qed.

(** C9. A vector whose length is not the four that [lnprior] and
    [simulate_dataset] unpack makes either of them raise at once (Python's
    [ValueError] is the dimension-mismatch error of the code). Inside the
    sampler the exception is not caught: a run started from such a vector
    ends with it on the first proposal, whatever fuel is left for further
    proposals. *)
Theorem wrong_dimension_raises (th : list Q) :
  length th <> 4 ->
  lnprior th = Raise ValueError
  /\ (forall rs : RandomState, simulate_dataset th rs = Raise ValueError)
  /\ (forall anderson_ksamp h n_steps scale quiet y_obs simulate_y
        (fuel : nat) (rs : RandomState),
        (1 <= n_steps)%Z ->
        rejection_sampler anderson_ksamp h n_steps scale quiet y_obs lnprior
          simulate_y (S fuel) th rs
        = Some (Raise ValueError))
  /\ (forall anderson_ksamp h n_steps scale quiet y_obs prior
        (fuel : nat) (rs : RandomState),
        (1 <= n_steps)%Z ->
        (forall c : list Q, length c = length th -> prior_valid prior c) ->
        rejection_sampler anderson_ksamp h n_steps scale quiet y_obs prior
          simulate_dataset (S fuel) th rs
        = Some (Raise ValueError)).
Proof.
  intros Hlen. split; [now apply lnprior_wrong_length |].
  split; [intros rs; now apply simulate_dataset_wrong_length |].
  assert (Hstart : forall n_steps rs, (1 <= n_steps)%Z ->
            exists smp,
              initial n_steps th rs = Ok (mkState th 0 0 smp ∅ [] rs)).
  { intros n rs Hn. unfold initial, zeros.
    destruct (Z.ltb_spec n 0); [lia |]. eexists. reflexivity. }
  split.
  - intros ak h n sc q y sim fuel rs Hn.
    destruct (Hstart n rs Hn) as (smp & Hinit).
    unfold rejection_sampler. rewrite Hinit. cbn [while_loop accepted_steps].
    destruct (Z.ltb_spec 0 n); [| lia].
    unfold loop_body. rewrite progress_theta, progress_rng.
    rewrite propose_step_ok. cbn [mbind result_bind theta rng].
    rewrite lnprior_wrong_length; [reflexivity |].
    rewrite length_zip_with, length_map, length_seq. lia.
  - intros ak h n sc q y prior fuel rs Hn Hvalid.
    destruct (Hstart n rs Hn) as (smp & Hinit).
    unfold rejection_sampler. rewrite Hinit. cbn [while_loop accepted_steps].
    destruct (Z.ltb_spec 0 n); [| lia].
    unfold loop_body. rewrite progress_theta, progress_rng.
    rewrite propose_step_ok. cbn [mbind result_bind theta rng].
    set (nt := zip_with _ _ _).
    assert (Hnt : length nt = length th).
    { unfold nt. rewrite length_zip_with, length_map, length_seq. lia. }
    destruct (Hvalid nt Hnt) as (p & Hp & Hfin).
    rewrite Hp. cbn [mbind result_bind]. rewrite Hfin.
    rewrite simulate_dataset_wrong_length; [reflexivity | lia].
Qed.

(** ** The size of a simulated dataset *)

(** The two sub-draw sizes [int((1 - f) * 500)] and [int(f * 500)] for a
    fraction in [[0, 1]]: both are non-negative, and they add up to 500 or
    to 499, a draw being lost when the two truncations both cut. *)
Lemma split_sizes (f : Q) :
  (0 <= f)%Q -> (f <= 1)%Q ->
  let a := int ((1 - f) * inject_Z len_x) in
  let b := int (f * inject_Z len_x) in
  (0 <= a)%Z /\ (0 <= b)%Z /\ (a + b = 500 \/ a + b = 499)%Z.
Proof.
  destruct f as [n d]. unfold Qle, int, len_x, Qminus, Qplus, Qopp, Qmult.
  cbn [Qnum Qden inject_Z].
  rewrite !Pos.mul_1_r, !Pos.mul_1_l, !Z.mul_1_r, !Z.mul_1_l.
  intros H0 H1.
  rewrite !Z.quot_div_nonneg by lia.
  pose proof (Z.div_mod ((Zpos d + - n) * 500) (Zpos d) ltac:(lia)) as Ea.
  pose proof (Z.mod_pos_bound ((Zpos d + - n) * 500) (Zpos d) ltac:(lia)) as Ba.
  pose proof (Z.div_mod (n * 500) (Zpos d) ltac:(lia)) as Eb.
  pose proof (Z.mod_pos_bound (n * 500) (Zpos d) ltac:(lia)) as Bb.
  set (a := ((Zpos d + - n) * 500 / Zpos d)%Z) in *.
  set (b := (n * 500 / Zpos d)%Z) in *.
  set (ra := ((Zpos d + - n) * 500 mod Zpos d)%Z) in *.
  set (rb := (n * 500 mod Zpos d)%Z) in *.
  cbn zeta.
  assert (Hsum : (Zpos d * (a + b) + (ra + rb) = 500 * Zpos d)%Z) by lia.
  assert (Hab : (498 < a + b <= 500)%Z) by nia.
  repeat split; try nia; lia.
Qed.

(** The dataset has as many values as the two sub-draws ask for. *)
Lemma simulate_dataset_sizes (mean1 mean2 std fraction : Q)
    (rs : RandomState) (a b : nat) :
  int ((1 - fraction) * inject_Z len_x) = Z.of_nat a ->
  int (fraction * inject_Z len_x) = Z.of_nat b ->
  exists (y_sim : list Q) (rs' : RandomState),
    simulate_dataset [mean1; mean2; std; fraction] rs = Ok (y_sim, rs')
    /\ length y_sim = a + b.
Proof.
  intros Ha Hb. unfold simulate_dataset. cbn [simulate_mixture].
  rewrite Ha, Hb.
  rewrite (randn_nonneg (Z.of_nat a)) by lia. cbn [mbind result_bind].
  rewrite (randn_nonneg (Z.of_nat b)) by lia. cbn [mbind result_bind].
  eexists _, _. split; [reflexivity |].
  rewrite length_app, !length_map, !length_seq. lia.
Qed.

(** On a prior-valid vector [simulate_dataset] returns, also when a
    sub-draw is empty, and the dataset has 500 or 499 elements. *)
Lemma simulate_dataset_length (mean1 mean2 std fraction : Q)
    (rs : RandomState) :
  (0 <= fraction)%Q -> (fraction <= 1)%Q ->
  exists (y_sim : list Q) (rs' : RandomState),
    simulate_dataset [mean1; mean2; std; fraction] rs = Ok (y_sim, rs')
    /\ (length y_sim = 500 \/ length y_sim = 499).
Proof.
  intros H0 H1. destruct (split_sizes fraction H0 H1) as (Ha & Hb & Hab).
  unfold simulate_dataset. cbn [simulate_mixture].
  set (a := int ((1 - fraction) * inject_Z len_x)) in *.
  set (b := int (fraction * inject_Z len_x)) in *.
  rewrite (randn_nonneg a) by exact Ha. cbn [mbind result_bind].
  rewrite (randn_nonneg b) by exact Hb. cbn [mbind result_bind].
  eexists _, _. split; [reflexivity |].
  rewrite length_app, !length_map, !length_seq. lia.
Qed.

(** C8. A prior-valid vector on which [simulate_dataset] does not keep
    the cardinality of the observations: with the fraction [0.001] the
    sub-draw sizes are [int(499.5) = 499] and [int(0.5) = 0]; the call
    returns, the second component is empty, and the dataset has 499
    elements, while [y_obs], made with the fraction [0.3], has 500. *)
Theorem simulate_dataset_drops_a_draw :
  lnprior [3; 9; 1; 1 # 1000]%Q = Ok (Fin 0)
  /\ int ((1 - (1 # 1000)) * inject_Z len_x) = 499%Z
  /\ int ((1 # 1000) * inject_Z len_x) = 0%Z
  /\ (forall rs : RandomState,
        exists (y_sim : list Q) (rs' : RandomState),
          simulate_dataset [3; 9; 1; 1 # 1000]%Q rs = Ok (y_sim, rs')
          /\ length y_sim = 499)
  /\ (forall (m1 m2 s : Q) (rs : RandomState),
        exists (y_obs : list Q) (rs' : RandomState),
          make_y_obs m1 m2 s rs = Ok (y_obs, rs') /\ length y_obs = 500).
Proof.
  split; [reflexivity |]. split; [reflexivity |]. split; [reflexivity |].
  split.
  - intros rs.
    exact (simulate_dataset_sizes 3 9 1 (1 # 1000) rs 499 0 eq_refl eq_refl).
  - intros m1 m2 s rs.
    exact (simulate_dataset_sizes m1 m2 s true_fraction rs 350 150
             eq_refl eq_refl).
Qed.

(** ** The distance *)

Lemma Qsum_nonneg (l : list Q) :
  Forall (fun x => 0 <= x)%Q l -> (0 <= Scipy.Qsum l)%Q.
Proof.
  induction 1 as [| x l Hx _ IH]; cbn [Scipy.Qsum foldr]; [apply Qle_refl |].
  rewrite Qred_correct. change 0%Q with (0 + 0)%Q.
  now apply Qplus_le_compat.
Qed.

Lemma Qsquare_nonneg (t : Q) : (0 <= t * t)%Q.
Proof. nra. Qed.

Lemma filter_length_le {A : Type} (f g : A -> bool) (l : list A) :
  (forall x, f x = true -> g x = true) ->
  length (List.filter f l) <= length (List.filter g l).
Proof.
  intros Hfg. induction l as [| x l IH]; cbn; [lia |].
  destruct (f x) eqn:Hf.
  - rewrite (Hfg x Hf). cbn. lia.
  - destruct (g x); cbn; lia.
Qed.

Lemma searchsorted_bounds (a : list Q) (z : Q) :
  (0 <= Scipy.searchsorted_left a z)%Q
  /\ (Scipy.searchsorted_left a z <= Scipy.searchsorted_right a z)%Q
  /\ (Scipy.searchsorted_right a z <= Scipy.size a)%Q.
Proof.
  unfold Scipy.searchsorted_left, Scipy.searchsorted_right, Scipy.size.
  split; [| split].
  - change 0%Q with (inject_Z 0). rewrite <- Zle_Qle. lia.
  - rewrite <- Zle_Qle. apply inj_le, filter_length_le. intros y Hy.
    apply Qle_bool_iff, Qlt_le_weak. now apply Qltb_lt.
  - rewrite <- Zle_Qle. apply inj_le, List.filter_length_le.
Qed.

Lemma insort_length (x : Q) (l : list Q) :
  length (Scipy.insort x l) = S (length l).
Proof.
  induction l as [| y l IH]; cbn; [reflexivity |].
  destruct (Qle_bool x y); cbn; now rewrite ?IH.
Qed.

Lemma sort_length (l : list Q) : length (Scipy.sort l) = length l.
Proof.
  unfold Scipy.sort. induction l as [| x l IH]; cbn [foldr]; [reflexivity |].
  now rewrite insort_length, IH.
Qed.

(** The rank statistic is a sum of squares over non-negative weights. *)
Lemma midrank_nonneg (samples : list (list Q)) (Z Zstar : list Q) :
  (1 <= length Z)%nat ->
  (0 <= Scipy.anderson_ksamp_midrank samples Z Zstar (Scipy.size Z))%Q.
Proof.
  intros HN. unfold Scipy.anderson_ksamp_midrank.
  assert (HNq : (1 <= Scipy.size Z)%Q).
  { unfold Scipy.size. change 1%Q with (inject_Z 1). rewrite <- Zle_Qle. lia. }
  apply Qmult_le_0_compat.
  - apply Qsum_nonneg, Forall_map, Forall_forall. intros s _.
    apply Qmult_le_0_compat.
    + apply Qsum_nonneg, Forall_map, Forall_forall. intros z _.
      destruct (searchsorted_bounds Z z) as (HL & HLR & HR).
      set (L := Scipy.searchsorted_left Z z) in *.
      set (R := Scipy.searchsorted_right Z z) in *.
      set (N := Scipy.size Z) in *.
      apply Qmult_le_0_compat.
      * apply Qmult_le_0_compat.
        -- apply Qmult_le_0_compat; [lra |].
           apply Qinv_le_0_compat. lra.
        -- apply Qsquare_nonneg.
      * apply Qinv_le_0_compat.
        assert (E : ((L + (R - L) / 2) * (N - (L + (R - L) / 2))
                     - N * (R - L) / 4
                     == L * (N - R) + (L + (N - R)) * (R - L) * (1 # 4))%Q)
          by field.
        rewrite E.
        assert (0 <= L * (N - R))%Q by (apply Qmult_le_0_compat; lra).
        assert (0 <= (L + (N - R)) * (R - L))%Q
          by (apply Qmult_le_0_compat; lra).
        lra.
    + apply Qinv_le_0_compat. unfold Scipy.size.
      change 0%Q with (inject_Z 0). rewrite <- Zle_Qle. lia.
  - apply Qmult_le_0_compat; [lra |]. apply Qinv_le_0_compat. lra.
Qed.

Lemma Qsqrt_nonneg (q : Q) : (0 <= Scipy.Qsqrt q)%Q.
Proof.
  unfold Scipy.Qsqrt, Qle. cbn. rewrite Z.mul_1_r. apply Z.sqrt_nonneg.
Qed.

(** The statistic of two samples, when SciPy returns one. *)
Lemma anderson_ksamp_two (y1 y2 : list Q) (a : Q) :
  Scipy.anderson_ksamp [y1; y2] = Ok a ->
  (a == (Scipy.anderson_ksamp_midrank [y1; y2]
           (Scipy.sort (y1 ++ y2 ++ []))
           (Scipy.unique (Scipy.sort (y1 ++ y2 ++ [])))
           (Scipy.size (Scipy.sort (y1 ++ y2 ++ []))) - 1)
        / Scipy.Qsqrt
            (Scipy.sigmasq [Scipy.size y1; Scipy.size y2]
               (Z.of_nat (length y1 + length y2))))%Q.
Proof.
  unfold Scipy.anderson_ksamp.
  cbn [length]. change (Z.of_nat 2) with 2%Z.
  change (2 <? 2)%Z with false. cbv iota.
  destruct (_ <? 2)%Z; [discriminate |].
  destruct (existsb _ _); [discriminate |].
  destruct (Scipy.hs_cs _); [discriminate |].
  destruct (Qltb _ _); [discriminate |].
  intros [= <-]. rewrite Qred_correct.
  cbn [concat map].
  assert (Hlen : length (Scipy.sort (y1 ++ y2 ++ []))
                 = length y1 + length y2).
  { rewrite sort_length, !length_app. cbn [length]. lia. }
  change (inject_Z (Z.of_nat (length (Scipy.sort (y1 ++ y2 ++ [])))))
    with (Scipy.size (Scipy.sort (y1 ++ y2 ++ []))).
  rewrite Hlen.
  change (inject_Z 2) with 2%Q. unfold Qdiv.
  remember (Scipy.anderson_ksamp_midrank _ _ _ _) as A eqn:EA.
  remember (/ Scipy.Qsqrt _)%Q as i eqn:Ei. clear EA Ei.
  assert (E : (2 - 1 == 1)%Q) by reflexivity.
  rewrite E. reflexivity.
Qed.

Lemma filter_insort_length (f : Q -> bool) (x : Q) (l : list Q) :
  length (List.filter f (Scipy.insort x l)) = length (List.filter f (x :: l)).
Proof.
  induction l as [| y l IH]; [reflexivity |].
  cbn [Scipy.insort]. destruct (Qle_bool x y); [reflexivity |].
  cbn [List.filter] in *. destruct (f y), (f x); cbn [length] in *; lia.
Qed.

Lemma filter_sort_length (f : Q -> bool) (l : list Q) :
  length (List.filter f (Scipy.sort l)) = length (List.filter f l).
Proof.
  unfold Scipy.sort. induction l as [| x l IH]; cbn [foldr]; [reflexivity |].
  rewrite filter_insort_length. cbn [List.filter].
  destruct (f x); cbn [length]; now rewrite IH.
Qed.

Lemma filter_twice_length (f : Q -> bool) (l : list Q) :
  length (List.filter f (l ++ l ++ []))
  = length (List.filter f l) + length (List.filter f l).
Proof. rewrite !List.filter_app, !length_app. cbn. lia. Qed.

Lemma inject_double (n : nat) :
  (inject_Z (Z.of_nat (n + n)) == 2 * inject_Z (Z.of_nat n))%Q.
Proof. rewrite Nat2Z.inj_add, inject_Z_plus. ring. Qed.

Lemma twin_term (n cl cr L R N s : Q) :
  (L == 2 * cl -> R == 2 * cr -> N == 2 * n -> s == n ->
   N * (cr - (cr - cl) / 2) - (L + (R - L) / 2) * s == 0)%Q.
Proof. intros -> -> -> ->. field. Qed.

Lemma zero_square_term (a t c : Q) : (t == 0 -> a * (t * t) / c == 0)%Q.
Proof. intros ->. unfold Qdiv. ring. Qed.

Lemma Qmult_zero_l (a b : Q) : (a == 0 -> a * b == 0)%Q.
Proof. intros ->. apply Qmult_0_l. Qed.

Lemma Qsum_zero (l : list Q) :
  Forall (fun x => x == 0)%Q l -> (Scipy.Qsum l == 0)%Q.
Proof.
  induction 1 as [| x l Hx _ IH]; cbn [Scipy.Qsum foldr]; [reflexivity |].
  rewrite Qred_correct, Hx, Qplus_0_l. exact IH.
Qed.

(** Two copies of one sample rank alike: every term of the rank statistic
    vanishes. *)
Lemma midrank_twins (y : list Q) :
  (Scipy.anderson_ksamp_midrank [y; y] (Scipy.sort (y ++ y ++ []))
     (Scipy.unique (Scipy.sort (y ++ y ++ [])))
     (Scipy.size (Scipy.sort (y ++ y ++ []))) == 0)%Q.
Proof.
  unfold Scipy.anderson_ksamp_midrank.
  apply Qmult_zero_l, Qsum_zero. cbn [map].
  assert (Hrow : forall Zstar : list Q,
             (Scipy.Qsum
                (map (fun z : Q =>
                        let left := Scipy.searchsorted_left
                                      (Scipy.sort (y ++ y ++ [])) z in
                        let lj := Scipy.searchsorted_right
                                    (Scipy.sort (y ++ y ++ [])) z - left in
                        let Bj := left + lj / 2 in
                        let s_right :=
                          Scipy.searchsorted_right (Scipy.sort y) z in
                        let fij :=
                          s_right - Scipy.searchsorted_left (Scipy.sort y) z in
                        let Mij := s_right - fij / 2 in
                        lj / Scipy.size (Scipy.sort (y ++ y ++ []))
                        * ((Scipy.size (Scipy.sort (y ++ y ++ [])) * Mij
                            - Bj * Scipy.size (Scipy.sort y))
                           * (Scipy.size (Scipy.sort (y ++ y ++ [])) * Mij
                              - Bj * Scipy.size (Scipy.sort y)))
                        / (Bj * (Scipy.size (Scipy.sort (y ++ y ++ [])) - Bj)
                           - Scipy.size (Scipy.sort (y ++ y ++ [])) * lj / 4))
                   Zstar)
              / Scipy.size (Scipy.sort y) == 0)%Q).
  { intros Zstar. apply Qmult_zero_l, Qsum_zero, Forall_map, Forall_forall.
    intros z _. cbv zeta. apply zero_square_term.
    apply twin_term with (n := Scipy.size y)
                         (cl := Scipy.searchsorted_left (Scipy.sort y) z).
    - unfold Scipy.searchsorted_left.
      rewrite !filter_sort_length, filter_twice_length. apply inject_double.
    - unfold Scipy.searchsorted_right.
      rewrite !filter_sort_length, filter_twice_length. apply inject_double.
    - unfold Scipy.size. rewrite sort_length, !length_app. cbn [length].
      rewrite Nat.add_0_r. apply inject_double.
    - unfold Scipy.size. now rewrite sort_length. }
  repeat (constructor; [exact (Hrow _) |]). constructor.
Qed.

Lemma twin_floor (A i : Q) :
  (A == 0 -> (A - 1) * i + (131 # 100) == (131 # 100) - 1 * i)%Q.
Proof. intros ->. ring. Qed.

Lemma floor_le (A i : Q) :
  (0 <= A -> 0 <= i -> (131 # 100) - 1 * i <= (A - 1) * i + (131 # 100))%Q.
Proof.
  intros HA Hi.
  assert (HAi : (0 <= A * i)%Q) by (apply Qmult_le_0_compat; assumption).
  lra.
Qed.



(** * The properties on the small problem *)

Lemma demo_initial :
  initial Demo.n_steps Demo.theta0 Demo.rs0 = Ok Demo.st0.
Proof. reflexivity. Qed.

Lemma demo_reach2 : Demo.reach 2 Demo.st0 = Some Demo.st2.
Proof. vm_compute. reflexivity. Qed.

Lemma demo_returns : Demo.sampler 4 = Some (Ok (Demo.chain, Demo.out)).
Proof. vm_compute. reflexivity. Qed.

Lemma chain_in_order_of_acceptance_witness :
  Demo.sampler 4 = Some (Ok (Demo.chain, Demo.out))
  /\ exists (st0 st : state) (k : nat),
      initial Demo.n_steps Demo.theta0 Demo.rs0 = Ok st0
      /\ k <= 4 /\ Demo.reach k st0 = Some st
      /\ (forall (j : nat) (stj : state),
            j < k -> Demo.reach j st0 = Some stj ->
            (accepted_steps stj < Demo.n_steps)%Z)
      /\ accepted_steps st = Demo.n_steps
      /\ Demo.chain = samples st
      /\ Z.of_nat (length Demo.chain) = Demo.n_steps
      /\ Demo.chain = Demo.history 4 st0
      /\ forall i : nat, Demo.chain !! i = Demo.history 4 st0 !! i.
Proof.
  split; [exact demo_returns |].
  exact (chain_in_order_of_acceptance Scipy.anderson_ksamp Demo.h
           Demo.n_steps Demo.scale false Demo.y_obs lnprior Demo.simulate
           4 Demo.theta0 Demo.rs0 Demo.chain Demo.out demo_returns).
Defined.

Lemma demo_st2_invariant : loop_invariant Demo.n_steps Demo.st2.
Proof.
  exact (reach_invariant Scipy.anderson_ksamp Demo.h Demo.n_steps Demo.scale
           false Demo.y_obs lnprior Demo.simulate 2 Demo.st0 Demo.st2
           (initial_invariant Demo.n_steps Demo.theta0 Demo.rs0 Demo.st0
              demo_initial)
           demo_reach2).
Qed.

Lemma accept_or_reject_witness :
  loop_invariant Demo.n_steps Demo.st2
  /\ (accepted_steps Demo.st2 < Demo.n_steps)%Z
  /\ propose_step (theta Demo.st2) Demo.scale (rng Demo.st2)
     = Ok (Demo.theta3, mkRandomState Demo.draws 20)
  /\ lnprior Demo.theta3 = Ok (Fin 0)
  /\ isfinite (Fin 0) = true
  /\ Demo.simulate Demo.theta3 (mkRandomState Demo.draws 20)
     = Ok (Demo.y_sim3, mkRandomState Demo.draws 28)
  /\ distance Scipy.anderson_ksamp Demo.y_obs Demo.y_sim3 = Ok Demo.dist3
  /\ exists st' : state,
      Demo.body Demo.st2 = Ok st'
      /\ total_steps st' = (total_steps Demo.st2 + 1)%Z
      /\ ((Demo.dist3 <= Demo.h)%Q ->
          theta st' = Demo.theta3
          /\ samples st'
             = <[Z.to_nat (accepted_steps Demo.st2) := Demo.theta3]>
                 (samples Demo.st2)
          /\ samples st' !! Z.to_nat (accepted_steps Demo.st2)
             = Some Demo.theta3
          /\ accepted_steps st' = (accepted_steps Demo.st2 + 1)%Z)
      /\ ((Demo.dist3 == Demo.h)%Q ->
          accepted_steps st' = (accepted_steps Demo.st2 + 1)%Z)
      /\ ((Demo.h < Demo.dist3)%Q ->
          theta st' = theta Demo.st2 /\ samples st' = samples Demo.st2
          /\ accepted_steps st' = accepted_steps Demo.st2).
Proof.
  assert (H1 : (accepted_steps Demo.st2 < Demo.n_steps)%Z)
    by (vm_compute; reflexivity).
  assert (H2 : propose_step (theta Demo.st2) Demo.scale (rng Demo.st2)
               = Ok (Demo.theta3, mkRandomState Demo.draws 20))
    by (vm_compute; reflexivity).
  assert (H3 : lnprior Demo.theta3 = Ok (Fin 0)) by (vm_compute; reflexivity).
  assert (H4 : isfinite (Fin 0) = true) by reflexivity.
  assert (H5 : Demo.simulate Demo.theta3 (mkRandomState Demo.draws 20)
               = Ok (Demo.y_sim3, mkRandomState Demo.draws 28))
    by (vm_compute; reflexivity).
  assert (H6 : distance Scipy.anderson_ksamp Demo.y_obs Demo.y_sim3
               = Ok Demo.dist3)
    by (vm_compute; reflexivity).
  repeat (split; [assumption || exact demo_st2_invariant |]).
  exact (accept_or_reject Scipy.anderson_ksamp Demo.h Demo.n_steps Demo.scale
           false Demo.y_obs lnprior Demo.simulate Demo.st2 Demo.theta3
           (mkRandomState Demo.draws 20) (mkRandomState Demo.draws 28)
           (Fin 0) Demo.y_sim3 Demo.dist3
           demo_st2_invariant H1 H2 H3 H4 H5 H6).
Defined.

Lemma prior_gate_witness :
  propose_step (theta Demo.st0) Demo.scale (rng Demo.st0)
  = Ok ([30 # 10; 90 # 10; 210 # 10; 10 # 20]%Q, mkRandomState Demo.draws 4)
  /\ lnprior [30 # 10; 90 # 10; 210 # 10; 10 # 20]%Q = Ok NegInf
  /\ isfinite NegInf = false
  /\ exists st' : state,
      Demo.body Demo.st0 = Ok st'
      /\ theta st' = theta Demo.st0
      /\ accepted_steps st' = accepted_steps Demo.st0
      /\ total_steps st' = total_steps Demo.st0
      /\ samples st' = samples Demo.st0
      /\ rng st' = mkRandomState Demo.draws 4
      /\ cursor (mkRandomState Demo.draws 4)
         = cursor (rng Demo.st0) + length (theta Demo.st0)
      /\ forall anderson_ksamp' h' y_obs' simulate_y',
          loop_body anderson_ksamp' h' Demo.n_steps Demo.scale false y_obs'
            lnprior simulate_y' Demo.st0
          = Ok st'.
Proof.
  assert (H1 : propose_step (theta Demo.st0) Demo.scale (rng Demo.st0)
               = Ok ([30 # 10; 90 # 10; 210 # 10; 10 # 20]%Q,
                     mkRandomState Demo.draws 4))
    by (vm_compute; reflexivity).
  assert (H2 : lnprior [30 # 10; 90 # 10; 210 # 10; 10 # 20]%Q = Ok NegInf)
    by (vm_compute; reflexivity).
  assert (H3 : isfinite NegInf = false) by reflexivity.
  repeat (split; [assumption |]).
  exact (proj1 (prior_gate Scipy.anderson_ksamp Demo.h Demo.n_steps
                  Demo.scale false Demo.y_obs lnprior Demo.simulate)
           Demo.st0 _ _ NegInf H1 H2 H3).
Defined.

Lemma counters_invariant_witness :
  initial Demo.n_steps Demo.theta0 Demo.rs0 = Ok Demo.st0
  /\ Demo.reach 2 Demo.st0 = Some Demo.st2
  /\ (0 <= accepted_steps Demo.st2 <= total_steps Demo.st2)%Z
  /\ (forall i : nat,
        (accepted_steps Demo.st2 <= Z.of_nat i)%Z ->
        i < length (samples Demo.st2) ->
        samples Demo.st2 !! i = Some (replicate (length Demo.theta0) 0%Q))
  /\ forall st' : state,
       (accepted_steps Demo.st2 < Demo.n_steps)%Z ->
       Demo.body Demo.st2 = Ok st' ->
       (accepted_steps Demo.st2 <= accepted_steps st')%Z
       /\ (total_steps Demo.st2 <= total_steps st')%Z
       /\ exists new_theta rs1 p,
           propose_step (theta Demo.st2) Demo.scale (rng Demo.st2)
           = Ok (new_theta, rs1)
           /\ lnprior new_theta = Ok p
           /\ total_steps st'
              = (total_steps Demo.st2 + (if isfinite p then 1 else 0))%Z
           /\ ((accepted_steps st' = accepted_steps Demo.st2
                /\ samples st' = samples Demo.st2)
               \/ (accepted_steps st' = (accepted_steps Demo.st2 + 1)%Z
                   /\ samples st'
                      = <[Z.to_nat (accepted_steps Demo.st2) := new_theta]>
                          (samples Demo.st2))).
Proof.
  split; [exact demo_initial |]. split; [exact demo_reach2 |].
  exact (counters_invariant Scipy.anderson_ksamp Demo.h Demo.n_steps
           Demo.scale false Demo.y_obs lnprior Demo.simulate
           Demo.theta0 Demo.rs0 Demo.st0 2 Demo.st2 demo_initial demo_reach2).
Defined.

Lemma demo_stuck :
  never_accepts Scipy.anderson_ksamp Demo.h 0 Demo.y_obs lnprior Demo.simulate
    Demo.stuck_theta.
Proof.
  intros rs. rewrite propose_step_ok. eexists _, _, NegInf.
  split; [reflexivity |]. split; [| now left].
  cbn [Demo.stuck_theta length seq map zip_with lnprior].
  assert (Hstd : forall z : Q, Qltb (20 + 0 * z) 10 = false).
  { intros z. unfold Qltb.
    rewrite (proj2 (Qle_bool_iff 10 (20 + 0 * z))); [reflexivity | lra]. }
  now rewrite Hstd, !andb_false_r.
Qed.

Lemma no_acceptance_no_termination_witness :
  (1 <= Demo.n_steps)%Z
  /\ never_accepts Scipy.anderson_ksamp Demo.h 0 Demo.y_obs lnprior
       Demo.simulate Demo.stuck_theta
  /\ (forall fuel : nat,
        rejection_sampler Scipy.anderson_ksamp Demo.h Demo.n_steps 0 false
          Demo.y_obs lnprior Demo.simulate fuel Demo.stuck_theta Demo.rs0
        = None)
  /\ exists st0 : state,
      initial Demo.n_steps Demo.stuck_theta Demo.rs0 = Ok st0
      /\ forall k : nat,
          exists st : state,
            after Scipy.anderson_ksamp Demo.h Demo.n_steps 0 false Demo.y_obs
              lnprior Demo.simulate k st0
            = Some st
            /\ accepted_steps st = 0%Z /\ theta st = Demo.stuck_theta.
Proof.
  assert (H1 : (1 <= Demo.n_steps)%Z) by (unfold Demo.n_steps; lia).
  split; [exact H1 |]. split; [exact demo_stuck |].
  exact (no_acceptance_no_termination Scipy.anderson_ksamp Demo.h
           Demo.n_steps 0 false Demo.y_obs lnprior Demo.simulate
           Demo.stuck_theta Demo.rs0 H1 demo_stuck).
Defined.

Lemma demo_twin_distance :
  distance Scipy.anderson_ksamp [1; 2]%Q [1; 2]%Q = Ok Demo.twin_distance.
Proof. vm_compute. reflexivity. Qed.


Lemma sampler_output_witness :
  Demo.sampler 4 = Some (Ok (Demo.chain, Demo.out))
  /\ exists (st0 st : state),
      initial Demo.n_steps Demo.theta0 Demo.rs0 = Ok st0
      /\ Demo.loop 4 st0 = Some (Ok st)
      /\ accepted_steps st = Demo.n_steps
      /\ Demo.chain = samples st
      /\ Z.of_nat (length Demo.chain) = Demo.n_steps
      /\ Demo.chain = Demo.history 4 st0
      /\ Forall (acceptable Scipy.anderson_ksamp Demo.h Demo.y_obs lnprior
                   Demo.simulate) Demo.chain
      /\ total_steps st <> 0%Z
      /\ Demo.out
         = stdout st
             ++ [AcceptanceRate (inject_Z (accepted_steps st)
                                 / inject_Z (total_steps st))]
      /\ last Demo.out
         = Some (AcceptanceRate
                   (inject_Z Demo.n_steps / inject_Z (total_steps st))).
Proof.
  split; [exact demo_returns |].
  exact (sampler_output Scipy.anderson_ksamp Demo.h Demo.n_steps Demo.scale
           false Demo.y_obs lnprior Demo.simulate
           4 Demo.theta0 Demo.rs0 Demo.chain Demo.out demo_returns).
Defined.

Lemma wrong_dimension_raises_witness :
  length [1; 2; 3]%Q <> 4
  /\ lnprior [1; 2; 3]%Q = Raise ValueError
  /\ (forall rs : RandomState,
        simulate_dataset [1; 2; 3]%Q rs = Raise ValueError)
  /\ (forall anderson_ksamp h n_steps scale quiet y_obs simulate_y
        (fuel : nat) (rs : RandomState),
        (1 <= n_steps)%Z ->
        rejection_sampler anderson_ksamp h n_steps scale quiet y_obs lnprior
          simulate_y (S fuel) [1; 2; 3]%Q rs
        = Some (Raise ValueError))
  /\ (forall anderson_ksamp h n_steps scale quiet y_obs prior
        (fuel : nat) (rs : RandomState),
        (1 <= n_steps)%Z ->
        (forall c : list Q,
            length c = length [1; 2; 3]%Q -> prior_valid prior c) ->
        rejection_sampler anderson_ksamp h n_steps scale quiet y_obs prior
          simulate_dataset (S fuel) [1; 2; 3]%Q rs
        = Some (Raise ValueError)).
Proof.
  assert (H : length [1; 2; 3]%Q <> 4) by (cbn; lia).
  split; [exact H |].
  exact (wrong_dimension_raises [1; 2; 3]%Q H).
Defined.

Lemma demo_loop4 : Demo.loop 4 Demo.st0 = Some (Ok Demo.st4).
Proof. vm_compute. reflexivity. Qed.

Lemma acceptance_rate_division_witness :
  (1 <= Demo.n_steps)%Z
  /\ initial Demo.n_steps Demo.theta0 Demo.rs0 = Ok Demo.st0
  /\ Demo.loop 4 Demo.st0 = Some (Ok Demo.st4)
  /\ ((1 <= Demo.n_steps)%Z /\ accepted_steps Demo.st4 = Demo.n_steps
      /\ (accepted_steps Demo.st4 <= total_steps Demo.st4)%Z
      /\ Demo.sampler 4
         = Some (Ok (samples Demo.st4,
                     stdout Demo.st4
                       ++ [AcceptanceRate
                             (inject_Z (accepted_steps Demo.st4)
                              / inject_Z (total_steps Demo.st4))])))
  /\ 0%Z = 0%Z
  /\ forall (fuel : nat) (theta0 : list Q) (rs : RandomState),
       while_loop Scipy.anderson_ksamp Demo.h 0 Demo.scale false Demo.y_obs
         lnprior Demo.simulate fuel (mkState theta0 0 0 [] ∅ [] rs)
       = Some (Ok (mkState theta0 0 0 [] ∅ [] rs))
       /\ rejection_sampler Scipy.anderson_ksamp Demo.h 0 Demo.scale false
            Demo.y_obs lnprior Demo.simulate fuel theta0 rs
          = Some (Raise ZeroDivisionError).
Proof.
  assert (H1 : (1 <= Demo.n_steps)%Z) by (unfold Demo.n_steps; lia).
  split; [exact H1 |]. split; [exact demo_initial |].
  split; [exact demo_loop4 |]. split.
  - exact (proj1 (acceptance_rate_division Scipy.anderson_ksamp Demo.h
                    Demo.n_steps Demo.scale false Demo.y_obs lnprior
                    Demo.simulate)
             4 Demo.theta0 Demo.rs0 Demo.st0 Demo.st4
             H1 demo_initial demo_loop4).
  - split; [reflexivity |].
    exact (proj2 (acceptance_rate_division Scipy.anderson_ksamp Demo.h
                    0 Demo.scale false Demo.y_obs lnprior Demo.simulate)
             eq_refl).
Defined.

(** * Further properties of the code *)

(** ** The proposal generator *)

(** X1. [propose_step] never fails. The proposal has the dimension of
    theta, its component [i] is [theta[i] + scale * z] for the [i]-th of
    the next [len(theta)] draws, which are consumed and nothing more; with
    a scale of zero the proposal equals theta. *)
Theorem propose_step_componentwise (th : list Q) (sc : Q) (rs : RandomState) :
  exists (new_theta : list Q) (rs' : RandomState),
    propose_step th sc rs = Ok (new_theta, rs')
    /\ length new_theta = length th
    /\ normal_draws rs' = normal_draws rs
    /\ cursor rs' = cursor rs + length th
    /\ (forall (i : nat) (t : Q),
          th !! i = Some t ->
          new_theta !! i
          = Some (t + sc * normal_draws rs (cursor rs + i))%Q)
    /\ ((sc == 0)%Q -> Forall2 Qeq new_theta th).
Proof.
  rewrite propose_step_ok. eexists _, _. split; [reflexivity |].
  assert (Hlook : forall (i : nat) (t : Q),
             th !! i = Some t ->
             zip_with (fun t e => t + sc * e)%Q th
               (map (normal_draws rs) (seq (cursor rs) (length th))) !! i
             = Some (t + sc * normal_draws rs (cursor rs + i))%Q).
  { intros i t Hi. rewrite lookup_zip_with, Hi. cbn.
    change (map (normal_draws rs) (seq (cursor rs) (length th)))
      with (normal_draws rs <$> seq (cursor rs) (length th)).
    rewrite list_lookup_fmap, lookup_seq_lt; [reflexivity |].
    now apply lookup_lt_Some in Hi. }
  assert (Hlen : length (zip_with (fun t e => t + sc * e)%Q th
                   (map (normal_draws rs) (seq (cursor rs) (length th))))
                 = length th).
  { rewrite length_zip_with, length_map, length_seq. lia. }
  split; [exact Hlen |]. split; [reflexivity |]. split; [reflexivity |].
  split; [exact Hlook |].
  intros Hsc. apply Forall2_same_length_lookup. split; [exact Hlen |].
  intros i x t Hx Ht. rewrite (Hlook i t Ht) in Hx. injection Hx as <-.
  rewrite Hsc. ring.
Qed.

(** ** The simulator *)

Lemma int_negative (q : Q) : (int q < 0)%Z <-> (q <= -1)%Q.
Proof.
  destruct q as [n d]. unfold int, Qle. cbn [Qnum Qden].
  Z.to_euclidean_division_equations. nia.
Qed.

Lemma randn_negative (n : Z) (rs : RandomState) :
  (n < 0)%Z -> randn n rs = Raise ValueError.
Proof. intros Hn. unfold randn. now destruct (Z.ltb_spec n 0); [| lia]. Qed.


(** X5. The prior gate makes the simulator safe: on every vector that
    [lnprior] lets through, [simulate_dataset] returns a dataset of 500 or
    499 values, having consumed one draw per value. *)
Theorem prior_valid_simulates (mean1 mean2 std fraction : Q)
    (rs : RandomState) :
  lnprior [mean1; mean2; std; fraction] = Ok (Fin 0) ->
  exists (y_sim : list Q) (rs' : RandomState),
    simulate_dataset [mean1; mean2; std; fraction] rs = Ok (y_sim, rs')
    /\ (length y_sim = 500 \/ length y_sim = 499)
    /\ normal_draws rs' = normal_draws rs
    /\ cursor rs' = cursor rs + length y_sim.
Proof.
  intros Hprior.
  assert (Hvalid : prior_valid lnprior [mean1; mean2; std; fraction])
    by now exists (Fin 0).
  apply lnprior_valid_iff in Hvalid.
  destruct Hvalid as (m1 & m2 & s & f & [= <- <- <- <-] & Hbox).
  destruct Hbox as (_ & _ & _ & _ & _ & _ & H0 & H1). clear Hprior.
  destruct (split_sizes fraction H0 H1) as (Ha & Hb & Hab).
  unfold simulate_dataset. cbn [simulate_mixture].
  set (a := int ((1 - fraction) * inject_Z len_x)) in *.
  set (b := int (fraction * inject_Z len_x)) in *.
  rewrite (randn_nonneg a) by exact Ha. cbn [mbind result_bind].
  rewrite (randn_nonneg b) by exact Hb. cbn [mbind result_bind].
  eexists _, _. split; [reflexivity |].
  rewrite length_app, !length_map, !length_seq. cbn [normal_draws cursor].
  split; [lia |]. split; [reflexivity | lia].
Qed.

(** ** The sampler *)

Section SamplerMore.

Context (anderson_ksamp : list (list Q) -> result Q).
Context (h : Q) (n_steps : Z) (scale : Q) (y_obs : list Q).
Context (prior : list Q -> result xfloat).
Context (simulate_y : list Q -> RandomState -> result (list Q * RandomState)).

Local Abbreviation body q :=
  (loop_body anderson_ksamp h n_steps scale q y_obs prior simulate_y).
Local Abbreviation loop q :=
  (while_loop anderson_ksamp h n_steps scale q y_obs prior simulate_y).
Local Abbreviation reach q :=
  (after anderson_ksamp h n_steps scale q y_obs prior simulate_y).
Local Abbreviation sampler q :=
  (rejection_sampler anderson_ksamp h n_steps scale q y_obs prior simulate_y).
Local Abbreviation proposals q :=
  (prior_valid_proposals anderson_ksamp h n_steps scale q y_obs prior
     simulate_y).
Local Abbreviation accepts q :=
  (accepted_at anderson_ksamp h n_steps scale q y_obs prior simulate_y).

Ltac drop_progress :=
  rewrite ?progress_theta, ?progress_accepted, ?progress_total,
    ?progress_samples, ?progress_rng in *.

Lemma body_same_sampling (q1 q2 : bool) (s1 s2 : state) :
  same_sampling s1 s2 ->
  match body q1 s1, body q2 s2 with
  | Ok s1', Ok s2' => same_sampling s1' s2'
  | Raise e1, Raise e2 => e1 = e2
  | _, _ => False
  end.
Proof.
  intros (Hth & Ha & Ht & Hs & Hr). unfold loop_body. drop_progress.
  rewrite Hth, Ha, Ht, Hs, Hr.
  destruct (propose_step (theta s2) scale (rng s2)) as [[nt rs1] | e];
    cbn [mbind result_bind]; [| reflexivity].
  destruct (prior nt) as [p | e]; cbn [mbind result_bind]; [| reflexivity].
  destruct (isfinite p); [| now repeat split].
  destruct (simulate_y nt rs1) as [[y rs2] | e]; cbn [mbind result_bind];
    [| reflexivity].
  destruct (distance anderson_ksamp y_obs y) as [d | e];
    cbn [mbind result_bind]; [| reflexivity].
  destruct (Qle_bool d h); [| now repeat split].
  destruct (set_row _ _ _) as [smp | e]; cbn [mbind result_bind];
    [now repeat split | reflexivity].
Qed.

Lemma loop_same_sampling (q1 q2 : bool) (fuel : nat) (s1 s2 : state) :
  same_sampling s1 s2 ->
  match loop q1 fuel s1, loop q2 fuel s2 with
  | Some (Ok s1'), Some (Ok s2') => same_sampling s1' s2'
  | Some (Raise e1), Some (Raise e2) => e1 = e2
  | None, None => True
  | _, _ => False
  end.
Proof.
  revert s1 s2. induction fuel as [| fuel IH]; intros s1 s2 Hsame;
    cbn [while_loop]; pose proof Hsame as (_ & Ha & _); rewrite Ha;
    destruct (accepted_steps s2 <? n_steps)%Z; try exact Hsame; try exact I.
  pose proof (body_same_sampling q1 q2 s1 s2 Hsame) as Hbody.
  destruct (body q1 s1) as [s1' | e1], (body q2 s2) as [s2' | e2];
    try contradiction; [now apply IH | exact Hbody].
Qed.

(** X6. The [quiet] flag only affects what is printed: whether the call
    returns, runs on or raises, the chain it returns and the exception it
    raises are the same for both values of the flag. *)
Theorem quiet_only_silences (q1 q2 : bool) (fuel : nat) (theta0 : list Q)
    (rs : RandomState) :
  value_of (sampler q1 fuel theta0 rs) = value_of (sampler q2 fuel theta0 rs).
Proof.
  unfold rejection_sampler.
  destruct (initial n_steps theta0 rs) as [st0 | e]; [| reflexivity].
  assert (Hsame : same_sampling st0 st0) by now repeat split.
  pose proof (loop_same_sampling q1 q2 fuel st0 st0 Hsame) as Hloop.
  destruct (loop q1 fuel st0) as [[s1 | e1] |],
           (loop q2 fuel st0) as [[s2 | e2] |];
    try contradiction; try reflexivity; [| now subst].
  destruct Hloop as (_ & Ha & Ht & Hs & _).
  unfold finish. rewrite Ha, Ht, Hs.
  now destruct (truediv (accepted_steps s2) (total_steps s2)).
Qed.

(** *** What is printed *)

Lemma body_output (q : bool) (st st' : state) :
  body q st = Ok st' ->
  printed st' = printed (progress n_steps q st)
  /\ stdout st' = stdout (progress n_steps q st).
Proof.
  unfold loop_body.
  destruct (propose_step _ _ _) as [[nt rs1] | e]; cbn [mbind result_bind];
    [| discriminate].
  destruct (prior nt) as [p | e]; cbn [mbind result_bind]; [| discriminate].
  destruct (isfinite p); [| now intros [= <-]].
  destruct (simulate_y nt rs1) as [[y rs2] | e]; cbn [mbind result_bind];
    [| discriminate].
  destruct (distance anderson_ksamp y_obs y) as [d | e];
    cbn [mbind result_bind]; [| discriminate].
  destruct (Qle_bool d h); [| now intros [= <-]].
  destruct (set_row _ _ _) as [smp | e]; cbn [mbind result_bind];
    [now intros [= <-] | discriminate].
Qed.

Lemma body_steps (q : bool) (st st' : state) :
  body q st = Ok st' ->
  accepted_steps st' = accepted_steps st
  \/ accepted_steps st' = (accepted_steps st + 1)%Z.
Proof.
  intros Hbody. apply loop_body_inv in Hbody.
  destruct Hbody
    as (nt & rs1 & p & _ & _ & [[_ Hr] | [_ (y & rs2 & d & _ & _ & Hd)]]).
  - left. apply Hr.
  - destruct Hd as [[_ Hr] | [_ Hacc]]; [left; apply Hr | right; apply Hacc].
Qed.

Lemma loop_stops (q : bool) (fuel : nat) (st : state) :
  (n_steps <= accepted_steps st)%Z -> loop q fuel st = Some (Ok st).
Proof.
  intros Hge. destruct fuel; cbn [while_loop];
    now destruct (Z.ltb_spec (accepted_steps st) n_steps); [lia |].
Qed.

(** A call that returns was asked for at least one sample. *)
Lemma returns_positive (q : bool) (fuel : nat) (theta0 : list Q)
    (rs : RandomState) (chain : list (list Q)) (out : list line) :
  sampler q fuel theta0 rs = Some (Ok (chain, out)) -> (1 <= n_steps)%Z.
Proof.
  intros Hrun. apply sampler_inv in Hrun.
  destruct Hrun as (st0 & st & Hinit & Hloop & Htot & _).
  destruct (initial_fields _ _ _ _ Hinit) as (_ & Ha0 & Ht0 & _ & _ & Hn).
  destruct (Z.le_gt_cases n_steps 0) as [Hle |]; [| lia].
  rewrite loop_stops in Hloop by lia. injection Hloop as <-. contradiction.
Qed.

Lemma body_reported (st st' : state) (m : nat) :
  loop_invariant n_steps st -> (accepted_steps st < n_steps)%Z ->
  reported n_steps st m -> body false st = Ok st' ->
  exists m' : nat, reported n_steps st' m'.
Proof.
  intros ((Ha0 & _) & _) Hlt (Hout & Hpr & Hrange & Hbelow) Hbody.
  destruct (body_output _ _ _ Hbody) as (Hp' & Ho').
  pose proof (body_steps _ _ _ Hbody) as Hstep.
  unfold progress in Hp', Ho'. cbn [negb andb] in Hp', Ho'.
  destruct (Z.eqb_spec (accepted_steps st mod 1000) 0) as [Hmod | Hmod].
  - destruct (decide (accepted_steps st ∈ printed st)) as [Hin | Hnin].
    + rewrite bool_decide_eq_false_2 in Hp', Ho' by tauto.
      cbn [andb] in Hp', Ho'.
      destruct (proj1 (Hpr _) Hin) as (j & Hj & Haj).
      exists m. unfold reported. rewrite Hp', Ho'.
      repeat split; try assumption; try apply Hpr; try lia.
    + rewrite bool_decide_eq_true_2 in Hp', Ho' by exact Hnin.
      cbn [andb printed stdout] in Hp', Ho'.
      assert (Ham : accepted_steps st = (1000 * Z.of_nat m)%Z).
      { destruct (Z.eq_dec (accepted_steps st) (1000 * Z.of_nat m)%Z)
          as [| Hne]; [assumption |].
        exfalso. apply Hnin, Hpr.
        exists (m - 1). apply Z.mod_divide in Hmod; [| lia].
        destruct Hmod as (c & Hc). lia. }
      exists (S m). unfold reported. rewrite Hp', Ho', Hout.
      split.
      { unfold progress_lines_upto. rewrite seq_S, map_app. cbn.
        now rewrite Ham. }
      split.
      { intros x. rewrite elem_of_union, elem_of_singleton, Hpr. split.
        - intros [-> | (j & Hj & ->)]; [exists m | exists j]; split; lia.
        - intros (j & Hj & ->).
          destruct (Nat.eq_dec j m) as [-> | Hne]; [left; lia |].
          right. exists j. split; lia. }
      split; lia.
  - cbn [andb] in Hp', Ho'.
    exists m. unfold reported. rewrite Hp', Ho'.
    assert (accepted_steps st <> (1000 * Z.of_nat m)%Z).
    { intros Heq. apply Hmod. rewrite Heq, Z.mul_comm. apply Z.mod_mul. lia. }
    repeat split; try assumption; try apply Hpr; lia.
Qed.

Lemma loop_reported (fuel : nat) (st st' : state) (m : nat) :
  loop_invariant n_steps st -> reported n_steps st m ->
  loop false fuel st = Some (Ok st') ->
  exists m' : nat, reported n_steps st' m'.
Proof.
  revert st m. induction fuel as [| fuel IH]; intros st m Hinv Hrep;
    cbn [while_loop];
    destruct (Z.ltb_spec (accepted_steps st) n_steps) as [Hlt | Hge];
    try discriminate; try (intros [= <-]; now exists m).
  destruct (body false st) as [st1 | e] eqn:Hbody; [| discriminate].
  destruct (body_reported _ _ _ Hinv Hlt Hrep Hbody) as (m1 & Hrep1).
  apply (IH st1 m1); [| exact Hrep1].
  eapply body_invariant; eassumption.
Qed.

Lemma loop_silent (fuel : nat) (st st' : state) :
  loop true fuel st = Some (Ok st') -> stdout st' = stdout st.
Proof.
  revert st. induction fuel as [| fuel IH]; intros st; cbn [while_loop];
    destruct (accepted_steps st <? n_steps)%Z;
    try discriminate; try now intros [= <-].
  destruct (body true st) as [st1 | e] eqn:Hbody; [| discriminate].
  intros Hloop. rewrite (IH _ Hloop).
  now destruct (body_output _ _ _ Hbody) as (_ & ->).
Qed.

(** X7. What a returning call prints. With [quiet] set, the acceptance
    rate and nothing else. Otherwise the lines [Sample 0 of n], [Sample
    1000 of n], ..., one for each multiple of 1000 below [n_steps], each
    once and in increasing order however many proposals were rejected in
    between, followed by the acceptance rate. *)
Theorem progress_report (q : bool) (fuel : nat) (theta0 : list Q)
    (rs : RandomState) (chain : list (list Q)) (out : list line) :
  sampler q fuel theta0 rs = Some (Ok (chain, out)) ->
  exists rate : Q,
    out = (if q then [] else progress_lines n_steps) ++ [AcceptanceRate rate].
Proof.
  intros Hrun. pose proof (returns_positive _ _ _ _ _ _ Hrun) as Hn.
  apply sampler_inv in Hrun.
  destruct Hrun as (st0 & st & Hinit & Hloop & _ & _ & ->).
  eexists. f_equal.
  pose proof (initial_invariant _ _ _ _ Hinit) as Hinv0.
  destruct (initial_fields _ _ _ _ Hinit) as (_ & Ha0 & _ & _ & Hout0 & _).
  destruct q.
  - rewrite (loop_silent _ _ _ Hloop). exact Hout0.
  - assert (Hrep0 : reported n_steps st0 0).
    { unfold reported. rewrite Hout0, Ha0. split; [reflexivity |].
      split; [| split; [lia | now left]].
      intros x. split.
      - unfold initial, zeros in Hinit.
        destruct (n_steps <? 0)%Z; [discriminate |].
        cbn [mbind result_bind] in Hinit. injection Hinit as <-.
        cbn [printed]. intros Hx. now apply not_elem_of_empty in Hx.
      - intros (j & Hj & _). lia. }
    destruct (loop_reported _ _ _ _ Hinv0 Hrep0 Hloop)
      as (m & Hout & _ & Hrange & Hbelow).
    destruct (loop_history _ _ _ _ _ _ _ _ _ _ _ Hinv0 Hloop) as (Ha & _).
    rewrite Hout. unfold progress_lines. f_equal.
    rewrite Ha in Hrange.
    assert (Hm : ((n_steps + 999) / 1000 = Z.of_nat m)%Z).
    { symmetry. apply (Z.div_unique _ _ _ (n_steps + 999 - 1000 * Z.of_nat m));
        lia. }
    rewrite Hm. now rewrite Nat2Z.id.
Qed.

(** *** The shape of the chain *)

Lemma body_shape (q : bool) (st st' : state) :
  loop_invariant n_steps st -> (accepted_steps st < n_steps)%Z ->
  Forall (fun row => length row = length (theta st)) (samples st) ->
  body q st = Ok st' ->
  length (theta st') = length (theta st)
  /\ Forall (fun row => length row = length (theta st')) (samples st').
Proof.
  intros Hinv Hlt Hshape Hbody. pose proof Hbody as Hcases.
  apply loop_body_inv in Hcases.
  destruct Hcases
    as (nt & rs1 & p & Hprop & _ & [[_ Hr] | [_ (y & rs2 & d & _ & _ & Hd)]]).
  - destruct Hr as (-> & _ & _ & -> & _). now split.
  - destruct Hd as [[_ (-> & _ & _ & -> & _)] | [_ Hacc]]; [now split |].
    rewrite (accepted_write _ _ _ _ _ Hinv Hlt Hacc).
    destruct Hacc as (-> & _).
    pose proof (propose_step_length _ _ _ _ _ Hprop) as Hlen.
    split; [exact Hlen |]. rewrite Hlen.
    now apply Forall_insert.
Qed.

(** X8. The chain is an [n_steps] by [len(theta)] array throughout: at
    every head of the loop it has [n_steps] rows, each with as many
    components as the initial theta, and so has the chain returned. *)
Theorem chain_shape (q : bool) (theta0 : list Q) (rs : RandomState)
    (st0 : state) :
  initial n_steps theta0 rs = Ok st0 ->
  (forall (k : nat) (st : state),
      reach q k st0 = Some st ->
      Z.of_nat (length (samples st)) = n_steps
      /\ Forall (fun row => length row = length theta0) (samples st))
  /\ (forall (fuel : nat) (chain : list (list Q)) (out : list line),
        sampler q fuel theta0 rs = Some (Ok (chain, out)) ->
        Z.of_nat (length chain) = n_steps
        /\ Forall (fun row => length row = length theta0) chain).
Proof.
  intros Hinit.
  pose proof (initial_invariant _ _ _ _ Hinit) as Hinv0.
  destruct (initial_fields _ _ _ _ Hinit) as (Hth0 & _).
  assert (Hshape0 : Forall (fun row => length row = length (theta st0))
                      (samples st0)).
  { unfold initial, zeros in Hinit. destruct (n_steps <? 0)%Z; [discriminate |].
    cbn [mbind result_bind] in Hinit. injection Hinit as <-. cbn.
    apply Forall_replicate, length_replicate. }
  assert (Hheads : forall (k : nat) (st1 st : state),
             loop_invariant n_steps st1 ->
             Forall (fun row => length row = length (theta st1)) (samples st1) ->
             reach q k st1 = Some st ->
             length (theta st) = length (theta st1)
             /\ Z.of_nat (length (samples st)) = n_steps
             /\ Forall (fun row => length row = length (theta st)) (samples st)).
  { induction k as [| k IH]; intros st1 st Hinv Hshape; cbn [after].
    - intros [= <-]. split; [reflexivity |]. split; [apply Hinv | exact Hshape].
    - destruct (Z.ltb_spec (accepted_steps st1) n_steps) as [Hlt |];
        [| discriminate].
      destruct (body q st1) as [st2 | e] eqn:Hbody; [| discriminate].
      destruct (body_shape _ _ _ Hinv Hlt Hshape Hbody) as (Hlen & Hshape2).
      intros Hreach.
      destruct (IH st2 st (body_invariant _ _ _ _ _ _ _ _ _ _ Hinv Hlt Hbody)
                  Hshape2 Hreach) as (Hl & Hrest).
      split; [congruence | exact Hrest]. }
  split.
  - intros k st Hreach.
    destruct (Hheads k st0 st Hinv0 Hshape0 Hreach) as (Hl & Hn & Hshape).
    split; [exact Hn |]. now rewrite Hl, Hth0 in Hshape.
  - intros fuel chain out Hrun. apply sampler_inv in Hrun.
    destruct Hrun as (st0' & st & Hinit' & Hloop & _ & -> & _).
    rewrite Hinit in Hinit'. injection Hinit' as <-.
    destruct (loop_reach _ _ _ _ _ _ _ _ _ _ _ Hloop) as (k & _ & Hreach & _).
    destruct (Hheads k st0 st Hinv0 Hshape0 Hreach) as (Hl & Hn & Hshape).
    split; [exact Hn |]. now rewrite Hl, Hth0 in Hshape.
Qed.

(** *** The acceptance rate *)

Lemma body_total (q : bool) (st st' : state) :
  body q st = Ok st' ->
  total_steps st'
  = (total_steps st + (if passes_prior scale prior st then 1 else 0))%Z.
Proof.
  intros Hbody. apply loop_body_inv in Hbody.
  destruct Hbody
    as (nt & rs1 & p & Hprop & Hp & [[Hfin Hr] | [Hfin (y & rs2 & d & _ & _ & Hd)]]);
    unfold passes_prior; rewrite Hprop, Hp, Hfin.
  - destruct Hr as (_ & _ & -> & _). lia.
  - destruct Hd as [[_ (_ & _ & -> & _)] | [_ (_ & _ & -> & _)]]; reflexivity.
Qed.

(** The counter [total_steps] counts the prior-valid proposals. *)
Lemma loop_total (q : bool) (fuel : nat) (st st' : state) :
  loop q fuel st = Some (Ok st') ->
  total_steps st' = (total_steps st + proposals q fuel st)%Z.
Proof.
  revert st. induction fuel as [| fuel IH]; intros st;
    cbn [while_loop prior_valid_proposals];
    destruct (Z.ltb_spec (accepted_steps st) n_steps) as [Hlt | Hge];
    try discriminate; try (intros [= <-]; lia).
  destruct (body q st) as [st1 | e] eqn:Hbody; [| discriminate].
  intros Hloop. rewrite (IH _ Hloop), (body_total _ _ _ Hbody). lia.
Qed.

Lemma proposals_le_fuel (q : bool) (fuel : nat) (st : state) :
  (0 <= proposals q fuel st <= Z.of_nat fuel)%Z.
Proof.
  revert st. induction fuel as [| fuel IH]; intros st;
    cbn [prior_valid_proposals]; [lia |].
  destruct (_ <? _)%Z; [| lia].
  destruct (body q st) as [st1 | e]; [| lia].
  specialize (IH st1). destruct (passes_prior scale prior st); lia.
Qed.


(** *** Where exceptions come from *)

Lemma body_raise_inv (q : bool) (st : state) (e : exn) :
  loop_invariant n_steps st -> (accepted_steps st < n_steps)%Z ->
  body q st = Raise e ->
  exists (new_theta : list Q) (rs1 : RandomState),
    propose_step (theta st) scale (rng st) = Ok (new_theta, rs1)
    /\ (prior new_theta = Raise e
        \/ exists p : xfloat,
            prior new_theta = Ok p /\ isfinite p = true
            /\ (simulate_y new_theta rs1 = Raise e
                \/ exists (y_sim : list Q) (rs2 : RandomState),
                    simulate_y new_theta rs1 = Ok (y_sim, rs2)
                    /\ anderson_ksamp [y_sim; y_obs] = Raise e)).
Proof.
  intros (Ha & _ & Hlen & _) Hlt. unfold loop_body. drop_progress.
  rewrite (propose_step_ok (theta st)). cbn [mbind result_bind].
  set (nt := zip_with _ _ _). set (rs1 := mkRandomState _ _).
  intros Hbody. exists nt, rs1. split; [reflexivity |].
  destruct (prior nt) as [p | e1]; cbn [mbind result_bind] in Hbody;
    [| left; congruence].
  right. exists p. split; [reflexivity |].
  destruct (isfinite p); [| discriminate]. split; [reflexivity |].
  destruct (simulate_y nt rs1) as [[y rs2] | e1];
    cbn [mbind result_bind] in Hbody; [| left; congruence].
  right. exists y, rs2. split; [reflexivity |].
  unfold distance in Hbody.
  destruct (anderson_ksamp [y; y_obs]) as [a2 | e1];
    cbn [mbind result_bind] in Hbody; [| congruence].
  destruct (Qle_bool _ h); [| discriminate].
  rewrite set_row_in_range in Hbody by lia. discriminate.
Qed.

Lemma loop_raise_inv (q : bool) (fuel : nat) (st : state) (e : exn) :
  loop_invariant n_steps st -> loop q fuel st = Some (Raise e) ->
  exists (k : nat) (st' : state),
    reach q k st = Some st' /\ loop_invariant n_steps st'
    /\ (accepted_steps st' < n_steps)%Z /\ body q st' = Raise e.
Proof.
  revert st. induction fuel as [| fuel IH]; intros st Hinv; cbn [while_loop];
    destruct (Z.ltb_spec (accepted_steps st) n_steps) as [Hlt | Hge];
    try discriminate.
  destruct (body q st) as [st1 | e1] eqn:Hbody.
  - intros Hloop.
    destruct (IH st1 (body_invariant _ _ _ _ _ _ _ _ _ _ Hinv Hlt Hbody) Hloop)
      as (k & st' & Hreach & Hrest).
    exists (S k), st'. split; [| exact Hrest]. cbn [after].
    destruct (Z.ltb_spec (accepted_steps st) n_steps); [| lia].
    now rewrite Hbody.
  - intros [= ->]. exists 0, st.
    split; [reflexivity |]. split; [exact Hinv |]. now split.
Qed.

(** Every exception of the sampler, traced to its origin. *)
Lemma sampler_raise_inv (q : bool) (fuel : nat) (theta0 : list Q)
    (rs : RandomState) (e : exn) :
  sampler q fuel theta0 rs = Some (Raise e) ->
  ((n_steps < 0)%Z /\ e = ValueError)
  \/ (n_steps = 0%Z /\ e = ZeroDivisionError)
  \/ exists (st0 : state) (k : nat) (st : state) (new_theta : list Q)
        (rs1 : RandomState),
      initial n_steps theta0 rs = Ok st0 /\ reach q k st0 = Some st
      /\ propose_step (theta st) scale (rng st) = Ok (new_theta, rs1)
      /\ (prior new_theta = Raise e
          \/ exists p : xfloat,
              prior new_theta = Ok p /\ isfinite p = true
              /\ (simulate_y new_theta rs1 = Raise e
                  \/ exists (y_sim : list Q) (rs2 : RandomState),
                      simulate_y new_theta rs1 = Ok (y_sim, rs2)
                      /\ anderson_ksamp [y_sim; y_obs] = Raise e)).
Proof.
  unfold rejection_sampler.
  destruct (initial n_steps theta0 rs) as [st0 | e0] eqn:Hinit.
  - pose proof (initial_invariant _ _ _ _ Hinit) as Hinv0.
    destruct (loop q fuel st0) as [[st | e1] |] eqn:Hloop; [| | discriminate].
    + unfold finish, truediv.
      destruct (Z.eqb_spec (total_steps st) 0) as [Hz |];
        cbn [mbind result_bind]; [| discriminate].
      intros [= <-]. right. left. split; [| reflexivity].
      destruct (loop_history _ _ _ _ _ _ _ _ _ _ _ Hinv0 Hloop)
        as (Ha & ((H0 & Hle) & _) & _).
      lia.
    + intros [= ->]. right. right.
      destruct (loop_raise_inv _ _ _ _ Hinv0 Hloop)
        as (k & st & Hreach & Hinv & Hlt & Hbody).
      destruct (body_raise_inv _ _ _ Hinv Hlt Hbody) as (nt & rs1 & Hprop & Hwho).
      now exists st0, k, st, nt, rs1.
  - unfold initial, zeros in Hinit.
    destruct (Z.ltb_spec n_steps 0) as [Hneg |]; [| discriminate].
    cbn [mbind result_bind] in Hinit. injection Hinit as <-.
    intros [= <-]. now left.
Qed.

(** X10. The sampler adds two exceptions of its own and no other: a
    [ValueError] for a negative [n_steps] and a [ZeroDivisionError] for
    [n_steps = 0]. Any other exception of a call was raised by the prior,
    the simulator or the statistic; in particular the write into the
    chain is never out of bounds. *)
Theorem exceptions_come_from_collaborators (q : bool) (fuel : nat)
    (theta0 : list Q) (rs : RandomState) (e : exn) :
  sampler q fuel theta0 rs = Some (Raise e) ->
  ((n_steps < 0)%Z /\ e = ValueError)
  \/ (n_steps = 0%Z /\ e = ZeroDivisionError)
  \/ (exists c : list Q, prior c = Raise e)
  \/ (exists (c : list Q) (g : RandomState), simulate_y c g = Raise e)
  \/ (exists y_sim : list Q, anderson_ksamp [y_sim; y_obs] = Raise e).
Proof.
  intros Hrun.
  destruct (sampler_raise_inv _ _ _ _ _ Hrun)
    as [Hneg | [Hzero | (st0 & k & st & nt & rs1 & _ & _ & _ & Hwho)]];
    [now left | now right; left |].
  right. right.
  destruct Hwho as [Hp | (p & _ & _ & [Hs | (y & rs2 & _ & Hd)])].
  - left. now exists nt.
  - right. left. now exists nt, rs1.
  - right. right. now exists y.
Qed.

(** *** The current theta *)

Lemma body_current (q : bool) (theta0 : list Q) (st st' : state) :
  loop_invariant n_steps st -> (accepted_steps st < n_steps)%Z ->
  current_is_last theta0 st -> body q st = Ok st' ->
  current_is_last theta0 st'.
Proof.
  intros Hinv Hlt Hcur Hbody. pose proof Hbody as Hcases.
  apply loop_body_inv in Hcases.
  destruct Hcases
    as (nt & rs1 & p & _ & _ & [[_ Hr] | [_ (y & rs2 & d & _ & _ & Hd)]]).
  - destruct Hr as (Hth & Ha & _ & Hs & _).
    unfold current_is_last. now rewrite Hth, Ha, Hs.
  - destruct Hd as [[_ (Hth & Ha & _ & Hs & _)] | [_ Hacc]].
    + unfold current_is_last. now rewrite Hth, Ha, Hs.
    + pose proof (accepted_write _ _ _ _ _ Hinv Hlt Hacc) as Hs.
      destruct Hacc as (Hth & Ha & _).
      destruct Hinv as ((H0 & _) & _ & Hlen & _).
      right. rewrite Ha, Hth, Hs. split; [lia |].
      replace (Z.to_nat (accepted_steps st + 1 - 1))
        with (Z.to_nat (accepted_steps st)) by lia.
      apply list_lookup_insert_eq. lia.
Qed.

(** X12. The chain is a Markov chain on the accepted vectors: at every
    head of the loop the current theta, from which the next proposal is
    made, is the last row written into the chain, and the initial theta as
    long as no proposal has been accepted. *)
Theorem proposals_start_from_last_accepted (q : bool) (theta0 : list Q)
    (rs : RandomState) (st0 : state) (k : nat) (st : state) :
  initial n_steps theta0 rs = Ok st0 -> reach q k st0 = Some st ->
  current_is_last theta0 st.
Proof.
  intros Hinit.
  pose proof (initial_invariant _ _ _ _ Hinit) as Hinv0.
  destruct (initial_fields _ _ _ _ Hinit) as (Hth0 & Ha0 & _).
  assert (Hcur0 : current_is_last theta0 st0) by now left.
  clear Hinit Hth0 Ha0. revert st0 Hinv0 Hcur0.
  induction k as [| k IH]; intros st0 Hinv0 Hcur0; cbn [after].
  - now intros [= <-].
  - destruct (Z.ltb_spec (accepted_steps st0) n_steps) as [Hlt |];
      [| discriminate].
    destruct (body q st0) as [st1 | e] eqn:Hbody; [| discriminate].
    apply IH.
    + eapply body_invariant; eassumption.
    + eapply body_current; eassumption.
Qed.

(** *** The chain as a random walk *)

Lemma random_walk_snoc (theta0 : list Q) (rows : list (list Q))
    (cur new_theta : list Q) (rs rs' : RandomState) :
  random_walk scale theta0 rows ->
  cur = match length rows with
        | O => theta0
        | S j => default theta0 (rows !! j)
        end ->
  propose_step cur scale rs = Ok (new_theta, rs') ->
  random_walk scale theta0 (rows ++ [new_theta]).
Proof.
  intros Hwalk Hcur Hprop i row Hrow.
  destruct (Nat.lt_ge_cases i (length rows)) as [Hlt | Hge].
  - rewrite lookup_app_l in Hrow by exact Hlt.
    destruct (Hwalk i row Hrow) as (g & g' & Hg). exists g, g'.
    destruct i as [| j]; [exact Hg |].
    now rewrite lookup_app_l by lia.
  - apply lookup_lt_Some in Hrow as Hi. rewrite length_app in Hi. cbn in Hi.
    assert (i = length rows) as -> by lia.
    rewrite lookup_app_r, Nat.sub_diag in Hrow by lia.
    injection Hrow as <-. exists rs, rs'. rewrite <- Hprop. f_equal.
    rewrite Hcur. destruct (length rows) as [| j] eqn:Hlen; [reflexivity |].
    now rewrite lookup_app_l by lia.
Qed.

Lemma body_random_walk (q : bool) (theta0 : list Q) (st st' : state) :
  loop_invariant n_steps st -> (accepted_steps st < n_steps)%Z ->
  current_is_last theta0 st ->
  random_walk scale theta0 (take (Z.to_nat (accepted_steps st)) (samples st)) ->
  body q st = Ok st' ->
  random_walk scale theta0
    (take (Z.to_nat (accepted_steps st')) (samples st')).
Proof.
  intros Hinv Hlt Hcur Hwalk Hbody. pose proof Hbody as Hcases.
  apply loop_body_inv in Hcases.
  destruct Hcases
    as (nt & rs1 & p & Hprop & _ & [[_ Hr] | [_ (y & rs2 & d & _ & _ & Hd)]]).
  - destruct Hr as (_ & -> & _ & -> & _). exact Hwalk.
  - destruct Hd as [[_ (_ & -> & _ & -> & _)] | [_ Hacc]]; [exact Hwalk |].
    rewrite (accepted_write _ _ _ _ _ Hinv Hlt Hacc).
    destruct Hacc as (_ & -> & _).
    destruct Hinv as ((H0 & _) & _ & Hlen & _).
    replace (Z.to_nat (accepted_steps st + 1))
      with (S (Z.to_nat (accepted_steps st))) by lia.
    rewrite (take_S_r _ _ nt) by (apply list_lookup_insert_eq; lia).
    rewrite take_insert_ge by lia.
    apply (random_walk_snoc theta0 _ (theta st) nt (rng st) rs1 Hwalk);
      [| exact Hprop].
    rewrite length_take_le by lia.
    destruct Hcur as [(Ha & Hth) | (Ha & Hth)].
    + rewrite Ha. exact Hth.
    + replace (Z.to_nat (accepted_steps st))
        with (S (Z.to_nat (accepted_steps st - 1))) by lia.
      rewrite lookup_take_lt by lia. now rewrite Hth.
Qed.

(** The chain returned is a walk from the initial theta. *)
Lemma returned_chain_walk (q : bool) (fuel : nat) (theta0 : list Q)
    (rs : RandomState) (chain : list (list Q)) (out : list line) :
  sampler q fuel theta0 rs = Some (Ok (chain, out)) ->
  random_walk scale theta0 chain.
Proof.
  intros Hrun. apply sampler_inv in Hrun.
  destruct Hrun as (st0 & st & Hinit & Hloop & _ & -> & _).
  pose proof (initial_invariant _ _ _ _ Hinit) as Hinv0.
  destruct (initial_fields _ _ _ _ Hinit) as (Hth0 & Ha0 & _).
  destruct (loop_history _ _ _ _ _ _ _ _ _ _ _ Hinv0 Hloop)
    as (Ha & (_ & _ & Hlen & _) & _).
  destruct (loop_reach _ _ _ _ _ _ _ _ _ _ _ Hloop) as (k & _ & Hreach & _).
  assert (Hgen : forall (k : nat) (s1 s2 : state),
             loop_invariant n_steps s1 -> current_is_last theta0 s1 ->
             random_walk scale theta0
               (take (Z.to_nat (accepted_steps s1)) (samples s1)) ->
             reach q k s1 = Some s2 ->
             random_walk scale theta0
               (take (Z.to_nat (accepted_steps s2)) (samples s2))).
  { clear. induction k as [| k IH]; intros s1 s2 Hinv Hcur Hwalk;
      cbn [after].
    - now intros [= <-].
    - destruct (Z.ltb_spec (accepted_steps s1) n_steps) as [Hlt |];
        [| discriminate].
      destruct (body q s1) as [s1' | e] eqn:Hbody; [| discriminate].
      apply IH.
      + eapply body_invariant; eassumption.
      + eapply body_current; eassumption.
      + eapply body_random_walk; eassumption. }
  assert (Hw0 : random_walk scale theta0
                  (take (Z.to_nat (accepted_steps st0)) (samples st0))).
  { rewrite Ha0. intros i row Hrow.
    change (Z.to_nat 0) with 0 in Hrow. rewrite take_0 in Hrow.
    now rewrite lookup_nil in Hrow. }
  pose proof (Hgen k st0 st Hinv0 (or_introl (conj Ha0 Hth0)) Hw0 Hreach)
    as Hw.
  now rewrite take_ge in Hw by lia.
Qed.

Lemma reach_S (q : bool) (k : nat) (st : state) :
  reach q (S k) st
  = if (accepted_steps st <? n_steps)%Z then
      match body q st with
      | Ok st' => reach q k st'
      | Raise _ => None
      end
    else None.
Proof. reflexivity. Qed.

Lemma reach_snoc (q : bool) (k : nat) (st0 st st' : state) :
  reach q k st0 = Some st -> (accepted_steps st < n_steps)%Z ->
  body q st = Ok st' -> reach q (S k) st0 = Some st'.
Proof.
  revert st0. induction k as [| k IH]; intros st0 Hreach Hlt Hbody.
  - injection Hreach as ->. rewrite reach_S.
    destruct (Z.ltb_spec (accepted_steps st) n_steps); [| lia].
    now rewrite Hbody.
  - rewrite reach_S in Hreach |- *.
    destruct (Z.ltb_spec (accepted_steps st0) n_steps); [| discriminate].
    destruct (body q st0) as [st1 | e]; [| discriminate].
    exact (IH _ Hreach Hlt Hbody).
Qed.

Lemma row_before_insert (theta0 : list Q) (rows : list (list Q))
    (n i : nat) (new_theta : list Q) :
  i <= n ->
  row_before theta0 (<[n := new_theta]> rows) i = row_before theta0 rows i.
Proof.
  intros Hi. destruct i as [| j]; [reflexivity |]. cbn [row_before].
  now rewrite list_lookup_insert_ne by lia.
Qed.

(** Each row written so far was accepted by an earlier execution of the
    body, which proposed it from the row before it. *)
Lemma body_rows (q : bool) (theta0 : list Q) (st0 : state) (k1 : nat)
    (s1 s1' : state) :
  reach q k1 st0 = Some s1 ->
  loop_invariant n_steps s1 -> (accepted_steps s1 < n_steps)%Z ->
  current_is_last theta0 s1 ->
  (forall (i : nat) (row : list Q),
      (Z.of_nat i < accepted_steps s1)%Z -> samples s1 !! i = Some row ->
      exists k : nat,
        k < k1 /\ accepts q st0 k i (row_before theta0 (samples s1) i) row) ->
  body q s1 = Ok s1' ->
  forall (i : nat) (row : list Q),
    (Z.of_nat i < accepted_steps s1')%Z -> samples s1' !! i = Some row ->
    exists k : nat,
      k < S k1 /\ accepts q st0 k i (row_before theta0 (samples s1') i) row.
Proof.
  intros Hreach Hinv Hlt Hcur Hrows Hbody. pose proof Hbody as Hcases.
  apply loop_body_inv in Hcases.
  assert (Hsame : accepted_steps s1' = accepted_steps s1 ->
                  samples s1' = samples s1 ->
                  forall (i : nat) (row : list Q),
                    (Z.of_nat i < accepted_steps s1')%Z ->
                    samples s1' !! i = Some row ->
                    exists k : nat,
                      k < S k1
                      /\ accepts q st0 k i
                           (row_before theta0 (samples s1') i) row).
  { intros -> -> i row Hi Hrow.
    destruct (Hrows i row Hi Hrow) as (k & Hk & Hacc).
    exists k. split; [lia | exact Hacc]. }
  destruct Hcases
    as (nt & rs1 & p & Hprop & _ & [[_ Hr] | [_ (y & rs2 & d & _ & _ & Hd)]]).
  - destruct Hr as (_ & Ha & _ & Hs & _). now apply Hsame.
  - destruct Hd as [[_ (_ & Ha & _ & Hs & _)] | [_ Hacc]];
      [now apply Hsame |]. clear Hsame.
    pose proof (accepted_write _ _ _ _ _ Hinv Hlt Hacc) as Hs.
    destruct Hacc as (Hth & Ha & _).
    destruct Hinv as ((H0 & _) & _ & Hlen & _).
    intros i row Hi Hrow. rewrite Ha in Hi. rewrite Hs in Hrow |- *.
    destruct (decide (i = Z.to_nat (accepted_steps s1))) as [-> | Hne].
    + rewrite list_lookup_insert_eq in Hrow by lia. injection Hrow as <-.
      exists k1. split; [lia |]. exists s1, s1', rs1.
      split; [exact Hreach |].
      split; [exact (reach_snoc _ _ _ _ _ Hreach Hlt Hbody) |].
      split; [lia |]. split; [lia |].
      split; [| split; [exact Hprop | exact Hth]].
      destruct Hcur as [(Hz & Hth0) | (Hpos & Hlast)].
      * rewrite Hz. exact Hth0.
      * replace (Z.to_nat (accepted_steps s1))
          with (S (Z.to_nat (accepted_steps s1 - 1))) by lia.
        cbn [row_before]. rewrite list_lookup_insert_ne by lia.
        now rewrite Hlast.
    + rewrite list_lookup_insert_ne in Hrow by lia.
      destruct (Hrows i row ltac:(lia) Hrow) as (k & Hk & Hacc).
      exists k. split; [lia |]. now rewrite row_before_insert by lia.
Qed.

(** X13. The chain returned is a random walk through the run: every
    row was accepted by one of the executions of the body made by this
    call. That execution started with [i] accepted samples and with the
    row before as its current theta (the initial theta for the first
    row), proposed the row from it with the generator as the run had left
    it, and ended with [i + 1] accepted samples and the row as the current
    theta. *)
Theorem chain_is_random_walk (q : bool) (fuel : nat) (theta0 : list Q)
    (rs : RandomState) (chain : list (list Q)) (out : list line) :
  sampler q fuel theta0 rs = Some (Ok (chain, out)) ->
  exists st0 : state,
    initial n_steps theta0 rs = Ok st0
    /\ forall (i : nat) (row : list Q),
         chain !! i = Some row ->
         exists k : nat,
           k < fuel
           /\ accepts q st0 k i (row_before theta0 chain i) row.
Proof.
  intros Hrun. apply sampler_inv in Hrun.
  destruct Hrun as (st0 & st & Hinit & Hloop & _ & -> & _).
  exists st0. split; [exact Hinit |].
  pose proof (initial_invariant _ _ _ _ Hinit) as Hinv0.
  destruct (initial_fields _ _ _ _ Hinit) as (Hth0 & Ha0 & _).
  destruct (loop_history _ _ _ _ _ _ _ _ _ _ _ Hinv0 Hloop)
    as (Ha & (_ & _ & Hlen & _) & _).
  destruct (loop_reach _ _ _ _ _ _ _ _ _ _ _ Hloop) as (K & HK & Hreach & _).
  assert (Hgen : forall (k k1 : nat) (s1 s2 : state),
             reach q k1 st0 = Some s1 ->
             loop_invariant n_steps s1 -> current_is_last theta0 s1 ->
             (forall (i : nat) (row : list Q),
                 (Z.of_nat i < accepted_steps s1)%Z ->
                 samples s1 !! i = Some row ->
                 exists k' : nat,
                   k' < k1
                   /\ accepts q st0 k' i
                        (row_before theta0 (samples s1) i) row) ->
             reach q k s1 = Some s2 ->
             forall (i : nat) (row : list Q),
               (Z.of_nat i < accepted_steps s2)%Z ->
               samples s2 !! i = Some row ->
               exists k' : nat,
                 k' < k1 + k
                 /\ accepts q st0 k' i
                      (row_before theta0 (samples s2) i) row).
  { clear. induction k as [| k IH]; intros k1 s1 s2 Hr1 Hinv Hcur Hrows.
    - intros [= <-] i row Hi Hrow.
      destruct (Hrows i row Hi Hrow) as (k' & Hk' & Hacc).
      exists k'. split; [lia | exact Hacc].
    - rewrite reach_S.
      destruct (Z.ltb_spec (accepted_steps s1) n_steps) as [Hlt |];
        [| discriminate].
      destruct (body q s1) as [s1' | e] eqn:Hbody; [| discriminate].
      intros Hr2 i row Hi Hrow.
      assert (Hr1' : reach q (S k1) st0 = Some s1')
        by (eapply reach_snoc; eassumption).
      assert (Hinv' : loop_invariant n_steps s1')
        by (eapply body_invariant; eassumption).
      assert (Hcur' : current_is_last theta0 s1')
        by exact (body_current _ _ _ _ Hinv Hlt Hcur Hbody).
      pose proof (body_rows _ _ _ _ _ _ Hr1 Hinv Hlt Hcur Hrows Hbody)
        as Hrows'.
      destruct (IH (S k1) s1' s2 Hr1' Hinv' Hcur' Hrows' Hr2 i row Hi Hrow)
        as (k' & Hk' & Hacc).
      exists k'. split; [lia | exact Hacc]. }
  intros i row Hrow.
  destruct (Hgen K 0 st0 st eq_refl Hinv0 (or_introl (conj Ha0 Hth0))
              ltac:(intros ? ? ?; lia) Hreach i row) as (k' & Hk' & Hacc).
  - apply lookup_lt_Some in Hrow. lia.
  - exact Hrow.
  - exists k'. split; [lia | exact Hacc].
Qed.

Lemma propose_step_scale_zero (th new_theta : list Q) (g g' : RandomState) :
  (scale == 0)%Q -> propose_step th scale g = Ok (new_theta, g') ->
  Forall2 Qeq new_theta th.
Proof.
  intros Hsc. rewrite propose_step_ok. intros [= <- _].
  apply Forall2_same_length_lookup. split.
  { rewrite length_zip_with, length_map, length_seq. lia. }
  intros i x t Hx Ht. rewrite lookup_zip_with, Ht in Hx. cbn in Hx.
  destruct (map _ _ !! i) as [z |]; [| discriminate]. cbn in Hx.
  injection Hx as <-. rewrite Hsc. ring.
Qed.

(** X14. With a step scale of zero the walk does not move: every row of
    a chain that is returned equals the initial theta, component by
    component. *)
Theorem zero_scale_chain_is_constant (q : bool) (fuel : nat)
    (theta0 : list Q) (rs : RandomState) (chain : list (list Q))
    (out : list line) :
  (scale == 0)%Q ->
  sampler q fuel theta0 rs = Some (Ok (chain, out)) ->
  Forall (fun row => Forall2 Qeq row theta0) chain.
Proof.
  intros Hsc Hrun. pose proof (returned_chain_walk _ _ _ _ _ _ Hrun) as Hwalk.
  apply Forall_lookup. intros i. induction i as [| i IH]; intros row Hrow.
  - destruct (Hwalk 0 row Hrow) as (g & g' & Hg).
    exact (propose_step_scale_zero _ _ _ _ Hsc Hg).
  - destruct (Hwalk (S i) row Hrow) as (g & g' & Hg).
    assert (Hi : is_Some (chain !! i)).
    { apply lookup_lt_is_Some. apply lookup_lt_Some in Hrow. lia. }
    destruct Hi as (prev & Hprev). rewrite Hprev in Hg. cbn in Hg.
    pose proof (propose_step_scale_zero _ _ _ _ Hsc Hg) as Hstep.
    pose proof (IH prev Hprev) as Hprev0.
    clear - Hstep Hprev0. revert theta0 Hprev0.
    induction Hstep as [| x y l k Hxy _ IHl]; intros theta0 Hprev0;
      inversion Hprev0; subst; constructor.
    + now transitivity y.
    + now apply IHl.
Qed.

End SamplerMore.

(** X11. With the notebook's own prior and simulator and a start of four
    components, the collaborators written in the notebook never raise:
    apart from the two exceptions for [n_steps <= 0], an exception of the
    sampler can only come out of the statistic. *)
Theorem default_collaborators_never_raise
    (anderson_ksamp : list (list Q) -> result Q)
    (h : Q) (n_steps : Z) (scale : Q) (quiet : bool) (y_obs : list Q)
    (fuel : nat) (theta0 : list Q) (rs : RandomState) (e : exn) :
  length theta0 = 4 ->
  rejection_sampler anderson_ksamp h n_steps scale quiet y_obs lnprior
    simulate_dataset fuel theta0 rs
  = Some (Raise e) ->
  ((n_steps < 0)%Z /\ e = ValueError)
  \/ (n_steps = 0%Z /\ e = ZeroDivisionError)
  \/ (exists y_sim : list Q,
        (length y_sim = 500 \/ length y_sim = 499)
        /\ anderson_ksamp [y_sim; y_obs] = Raise e).
Proof.
  intros Hdim Hrun.
  destruct (sampler_raise_inv _ _ _ _ _ _ _ _ _ _ _ _ Hrun)
    as [Hneg | [Hzero | (st0 & k & st & nt & rs1 & Hinit & Hreach & Hprop & Hwho)]];
    [now left | now right; left |].
  right. right.
  assert (Hlen : length nt = 4).
  { rewrite (propose_step_length _ _ _ _ _ Hprop).
    rewrite (reach_dimension _ _ _ _ _ _ _ _ _ _ _ Hreach).
    destruct (initial_fields _ _ _ _ Hinit) as (-> & _). exact Hdim. }
  destruct nt as [| m1 [| m2 [| s [| f [| x nt]]]]]; try discriminate.
  destruct Hwho as [Hp | (p & Hp & Hfin & Hsim)].
  - cbn [lnprior] in Hp. now destruct (_ && _).
  - assert (Hvalid : prior_valid lnprior [m1; m2; s; f]) by now exists p.
    apply lnprior_valid_iff in Hvalid.
    destruct Hvalid as (m1' & m2' & s' & f' & [= <- <- <- <-] & Hbox).
    destruct Hbox as (_ & _ & _ & _ & _ & _ & H0 & H1).
    destruct (simulate_dataset_length m1 m2 s f rs1 H0 H1)
      as (y & rs2 & Hy & Hsize).
    rewrite Hy in Hsim.
    destruct Hsim as [Hs | (y' & rs2' & [= <- <-] & Hd)]; [discriminate |].
    now exists y.
Qed.

(** ** The tolerance *)

(** X15. The tolerance acts monotonically on one proposal: from the same
    state, a proposal accepted under [h1] is accepted under every larger
    [h2], and a proposal not accepted under [h2] is not accepted under any
    smaller [h1]; in both cases the body ends in the same state. *)
Theorem tolerance_monotone (anderson_ksamp : list (list Q) -> result Q)
    (h1 h2 : Q) (n_steps : Z) (scale : Q) (quiet : bool) (y_obs : list Q)
    (prior : list Q -> result xfloat)
    (simulate_y : list Q -> RandomState -> result (list Q * RandomState))
    (st st' : state) :
  (h1 <= h2)%Q ->
  (loop_body anderson_ksamp h1 n_steps scale quiet y_obs prior simulate_y st
   = Ok st' ->
   accepted_steps st' = (accepted_steps st + 1)%Z ->
   loop_body anderson_ksamp h2 n_steps scale quiet y_obs prior simulate_y st
   = Ok st')
  /\ (loop_body anderson_ksamp h2 n_steps scale quiet y_obs prior simulate_y st
      = Ok st' ->
      accepted_steps st' = accepted_steps st ->
      loop_body anderson_ksamp h1 n_steps scale quiet y_obs prior simulate_y st
      = Ok st').
Proof.
  intros Hh. unfold loop_body.
  destruct (propose_step _ _ _) as [[nt rs1] | e]; cbn [mbind result_bind];
    [| split; discriminate].
  destruct (prior nt) as [p | e]; cbn [mbind result_bind];
    [| split; discriminate].
  destruct (isfinite p); [| split; intros H _; exact H].
  destruct (simulate_y nt rs1) as [[y rs2] | e]; cbn [mbind result_bind];
    [| split; discriminate].
  destruct (distance anderson_ksamp y_obs y) as [d | e];
    cbn [mbind result_bind]; [| split; discriminate].
  destruct (Qle_bool d h1) eqn:H1, (Qle_bool d h2) eqn:H2;
    try (split; intros H _; exact H).
  - apply Qle_bool_iff in H1. apply Qle_bool_false in H2.
    exfalso. apply (Qlt_not_le _ _ H2). now apply (Qle_trans _ h1).
  - split.
    + intros [= <-]. cbn. rewrite progress_accepted. lia.
    + destruct (set_row _ _ _) as [smp | e]; cbn [mbind result_bind];
        [| discriminate].
      intros [= <-]. cbn. rewrite progress_accepted. lia.
Qed.

(** * The further properties on the small problem *)

Lemma demo_reach4 : Demo.reach 4 Demo.st0 = Some Demo.st4.
Proof. vm_compute. reflexivity. Qed.

Lemma propose_step_componentwise_witness :
  (exists (new_theta : list Q) (rs' : RandomState),
      propose_step Demo.theta0 Demo.scale Demo.rs0 = Ok (new_theta, rs')
      /\ length new_theta = length Demo.theta0
      /\ cursor rs' = cursor Demo.rs0 + length Demo.theta0
      /\ new_theta !! 2
         = Some (1 + Demo.scale * normal_draws Demo.rs0 (cursor Demo.rs0 + 2))%Q)
  /\ (0 == 0)%Q
  /\ exists (new_theta : list Q) (rs' : RandomState),
      propose_step Demo.theta0 0 Demo.rs0 = Ok (new_theta, rs')
      /\ Forall2 Qeq new_theta Demo.theta0.
Proof.
  split; [| split; [reflexivity |]].
  - destruct (propose_step_componentwise Demo.theta0 Demo.scale Demo.rs0)
      as (nt & rs' & Hrun & Hlen & _ & Hcur & Hcomp & _).
    exists nt, rs'. repeat split; try assumption.
    exact (Hcomp 2 1%Q eq_refl).
  - destruct (propose_step_componentwise Demo.theta0 0 Demo.rs0)
      as (nt & rs' & Hrun & _ & _ & _ & _ & Hzero).
    exists nt, rs'. split; [exact Hrun |]. apply Hzero. reflexivity.
Defined.


Lemma prior_valid_simulates_witness :
  lnprior [3; 9; 1; 1 # 2]%Q = Ok (Fin 0)
  /\ exists (y_sim : list Q) (rs' : RandomState),
      simulate_dataset [3; 9; 1; 1 # 2]%Q Demo.rs0 = Ok (y_sim, rs')
      /\ (length y_sim = 500 \/ length y_sim = 499)
      /\ normal_draws rs' = normal_draws Demo.rs0
      /\ cursor rs' = cursor Demo.rs0 + length y_sim.
Proof.
  assert (H : lnprior [3; 9; 1; 1 # 2]%Q = Ok (Fin 0)) by reflexivity.
  split; [exact H |].
  exact (prior_valid_simulates 3 9 1 (1 # 2) Demo.rs0 H).
Defined.

Lemma progress_report_witness :
  Demo.sampler 4 = Some (Ok (Demo.chain, Demo.out))
  /\ exists rate : Q,
      Demo.out = progress_lines Demo.n_steps ++ [AcceptanceRate rate].
Proof.
  split; [exact demo_returns |].
  exact (progress_report Scipy.anderson_ksamp Demo.h Demo.n_steps Demo.scale
           Demo.y_obs lnprior Demo.simulate false 4 Demo.theta0 Demo.rs0
           Demo.chain Demo.out demo_returns).
Defined.

Lemma chain_shape_witness :
  initial Demo.n_steps Demo.theta0 Demo.rs0 = Ok Demo.st0
  /\ Demo.reach 2 Demo.st0 = Some Demo.st2
  /\ (Z.of_nat (length (samples Demo.st2)) = Demo.n_steps
      /\ Forall (fun row => length row = length Demo.theta0)
           (samples Demo.st2))
  /\ Demo.sampler 4 = Some (Ok (Demo.chain, Demo.out))
  /\ (Z.of_nat (length Demo.chain) = Demo.n_steps
      /\ Forall (fun row => length row = length Demo.theta0) Demo.chain).
Proof.
  pose proof (chain_shape Scipy.anderson_ksamp Demo.h Demo.n_steps Demo.scale
                Demo.y_obs lnprior Demo.simulate false Demo.theta0 Demo.rs0
                Demo.st0 demo_initial) as (Hheads & Hchain).
  split; [exact demo_initial |]. split; [exact demo_reach2 |].
  split; [exact (Hheads 2 Demo.st2 demo_reach2) |].
  split; [exact demo_returns |].
  exact (Hchain 4 Demo.chain Demo.out demo_returns).
Defined.

Lemma demo_proposals : Demo.proposals 4 Demo.st0 = 3%Z.
Proof. vm_compute. reflexivity. Qed.


Lemma cases_short_run : Cases.short_run 3 = Some (Raise ValueError).
Proof. vm_compute. reflexivity. Qed.

Lemma exceptions_come_from_collaborators_witness :
  Cases.short_run 3 = Some (Raise ValueError)
  /\ (((1 < 0)%Z /\ ValueError = ValueError)
      \/ (1%Z = 0%Z /\ ValueError = ZeroDivisionError)
      \/ (exists c : list Q, lnprior c = Raise ValueError)
      \/ (exists (c : list Q) (g : RandomState),
            Demo.simulate c g = Raise ValueError)
      \/ (exists y_sim : list Q,
            Scipy.anderson_ksamp [y_sim; Demo.y_obs] = Raise ValueError)).
Proof.
  split; [exact cases_short_run |].
  exact (exceptions_come_from_collaborators Scipy.anderson_ksamp Demo.h 1
           Demo.scale Demo.y_obs lnprior Demo.simulate true 3 [1; 2; 3]%Q
           Demo.rs0 ValueError cases_short_run).
Defined.

Lemma cases_flat_run : Cases.flat_run 3 = Some (Raise ValueError).
Proof. vm_compute. reflexivity. Qed.

Lemma default_collaborators_never_raise_witness :
  length [3; 3; 1; 1 # 2]%Q = 4
  /\ Cases.flat_run 3 = Some (Raise ValueError)
  /\ (((1 < 0)%Z /\ ValueError = ValueError)
      \/ (1%Z = 0%Z /\ ValueError = ZeroDivisionError)
      \/ (exists y_sim : list Q,
            (length y_sim = 500 \/ length y_sim = 499)
            /\ Scipy.anderson_ksamp [y_sim; [3]%Q] = Raise ValueError)).
Proof.
  split; [reflexivity |]. split; [exact cases_flat_run |].
  exact (default_collaborators_never_raise Scipy.anderson_ksamp 5 1 0 true
           [3]%Q 3 [3; 3; 1; 1 # 2]%Q Cases.still ValueError eq_refl
           cases_flat_run).
Defined.

Lemma proposals_start_from_last_accepted_witness :
  initial Demo.n_steps Demo.theta0 Demo.rs0 = Ok Demo.st0
  /\ Demo.reach 4 Demo.st0 = Some Demo.st4
  /\ current_is_last Demo.theta0 Demo.st4.
Proof.
  split; [exact demo_initial |]. split; [exact demo_reach4 |].
  exact (proposals_start_from_last_accepted Scipy.anderson_ksamp Demo.h
           Demo.n_steps Demo.scale Demo.y_obs lnprior Demo.simulate false
           Demo.theta0 Demo.rs0 Demo.st0 4 Demo.st4 demo_initial demo_reach4).
Defined.

Lemma chain_is_random_walk_witness :
  Demo.sampler 4 = Some (Ok (Demo.chain, Demo.out))
  /\ exists st0 : state,
      initial Demo.n_steps Demo.theta0 Demo.rs0 = Ok st0
      /\ forall (i : nat) (row : list Q),
           Demo.chain !! i = Some row ->
           exists k : nat,
             k < 4
             /\ accepted_at Scipy.anderson_ksamp Demo.h Demo.n_steps
                  Demo.scale false Demo.y_obs lnprior Demo.simulate st0 k i
                  (row_before Demo.theta0 Demo.chain i) row.
Proof.
  split; [exact demo_returns |].
  exact (chain_is_random_walk Scipy.anderson_ksamp Demo.h Demo.n_steps
           Demo.scale Demo.y_obs lnprior Demo.simulate false 4 Demo.theta0
           Demo.rs0 Demo.chain Demo.out demo_returns).
Defined.

Lemma cases_frozen_run :
  Cases.frozen_run 6
  = Some (Ok (Cases.frozen_chain, [AcceptanceRate (2 # 2)])).
Proof. vm_compute. reflexivity. Qed.

Lemma zero_scale_chain_is_constant_witness :
  (0 == 0)%Q
  /\ Cases.frozen_run 6
     = Some (Ok (Cases.frozen_chain, [AcceptanceRate (2 # 2)]))
  /\ Forall (fun row => Forall2 Qeq row Demo.theta0) Cases.frozen_chain.
Proof.
  assert (H : (0 == 0)%Q) by reflexivity.
  split; [exact H |]. split; [exact cases_frozen_run |].
  exact (zero_scale_chain_is_constant Scipy.anderson_ksamp Demo.h 2 0
           Demo.y_obs lnprior Demo.simulate true 6 Demo.theta0 Demo.rs0
           Cases.frozen_chain [AcceptanceRate (2 # 2)] H cases_frozen_run).
Defined.

Lemma demo_body_st2 :
  Demo.body Demo.st2 = Ok (default Demo.st0 (Demo.reach 3 Demo.st0)).
Proof. vm_compute. reflexivity. Qed.

Lemma tolerance_monotone_witness :
  (Demo.h <= 6)%Q
  /\ Demo.body Demo.st2 = Ok (default Demo.st0 (Demo.reach 3 Demo.st0))
  /\ accepted_steps (default Demo.st0 (Demo.reach 3 Demo.st0))
     = (accepted_steps Demo.st2 + 1)%Z
  /\ loop_body Scipy.anderson_ksamp 6 Demo.n_steps Demo.scale false Demo.y_obs
       lnprior Demo.simulate Demo.st2
     = Ok (default Demo.st0 (Demo.reach 3 Demo.st0)).
Proof.
  assert (H : (Demo.h <= 6)%Q) by (unfold Demo.h; lra).
  assert (Ha : accepted_steps (default Demo.st0 (Demo.reach 3 Demo.st0))
               = (accepted_steps Demo.st2 + 1)%Z)
    by (vm_compute; reflexivity).
  split; [exact H |]. split; [exact demo_body_st2 |]. split; [exact Ha |].
  exact (proj1 (tolerance_monotone Scipy.anderson_ksamp Demo.h 6 Demo.n_steps
                  Demo.scale false Demo.y_obs lnprior Demo.simulate Demo.st2
                  (default Demo.st0 (Demo.reach 3 Demo.st0)) H)
           demo_body_st2 Ha).
Defined.
